(** * The binary bakery decoder ([decoder.h]), embedded and verified

    The decoder turns a sequence of 64-bit words (a header of up to three
    words followed by a payload) into a sequence of elements of a type chosen
    by the caller.  This file embeds the functions of [decoder.h] as Rocq
    functions and proves the properties stated for them.

    Conventions of the embedding:
    - every C++ integer is a [Z]; conversions between integer types are
      written out ([to_int], [to_size_t]); an [int] product that leaves the
      range of [int] is undefined behaviour;
    - [std::bit_cast] is taken on a little-endian host, the layout the wire
      format is documented with: byte [k] of a word [w] is
      [(w >> 8k) & 0xFF];
    - a value of the caller's element type is the list of the bytes of its
      object representation, so [std::bit_cast] between two types of the
      same size is the identity on that list; the type is given by its size
      and, where the layout of [detail::wrapper_type] depends on it, by the
      exponent of its alignment;
    - an outcome is a [result]: a value, a thrown exception, a rejected
      [static_assert], or undefined behaviour (an access out of range, an
      [int] overflow). *)

From Stdlib Require Import ZArith List String Lia Bool.
From stdpp Require Import base tactics option list.

Local Open Scope Z_scope.

(** ** Outcomes *)

Inductive result (A : Type) : Type :=
| Ok (a : A)
| Throw (msg : string)
| StaticAssert (msg : string)
| Undefined.
Arguments Ok {A} a.
Arguments Throw {A} msg.
Arguments StaticAssert {A} msg.
Arguments Undefined {A}.

#[global] Instance result_ret : MRet result := fun A a => Ok a.
#[global] Instance result_bind : MBind result := fun A B f m =>
  match m with
  | Ok a => f a
  | Throw msg => Throw msg
  | StaticAssert msg => StaticAssert msg
  | Undefined => Undefined
  end.

(** A computation that reads words of the source array: its outcome and the
    indices of the words it read, in the order of the reads. *)
Record traced (A : Type) : Type := Traced { value : result A; reads : list nat }.
Arguments Traced {A} value reads.
Arguments value {A} t.
Arguments reads {A} t.

#[global] Instance traced_ret : MRet traced := fun A a => Traced (Ok a) [].
#[global] Instance traced_bind : MBind traced := fun A B f m =>
  match value m with
  | Ok a => Traced (value (f a)) (reads m ++ reads (f a))
  | Throw msg => Traced (Throw msg) (reads m)
  | StaticAssert msg => Traced (StaticAssert msg) (reads m)
  | Undefined => Traced Undefined (reads m)
  end.

Definition lift {A : Type} (r : result A) : traced A := Traced r [].

(** [source[i]] on [const uint64_t (&source)[array_size]]. *)
Definition read_word (source : list Z) (i : nat) : traced Z :=
  Traced (match source !! i with Some w => Ok w | None => Undefined end) [i].

(** ** Integers *)

Definition int_min : Z := - 2 ^ 31.
Definition int_max : Z := 2 ^ 31 - 1.

(** Conversion to [int] (modular). *)
Definition to_int (z : Z) : Z := (z + 2 ^ 31) mod 2 ^ 32 - 2 ^ 31.

(** Conversion to [size_t] (64 bits, modular). *)
Definition to_size_t (z : Z) : Z := z mod 2 ^ 64.

(** [a * b] on two [int]s. *)
Definition int_mul (a b : Z) : result Z :=
  if (int_min <=? a * b) && (a * b <=? int_max) then Ok (a * b) else Undefined.

(** [l[i]] for reading and [l[i] = v] for writing, on an array, a vector or
    through a pointer: outside the object both are undefined. *)
Definition read_at {A : Type} (l : list A) (i : Z) : result A :=
  if i <? 0 then Undefined
  else match l !! Z.to_nat i with Some x => Ok x | None => Undefined end.

Definition write_at {A : Type} (l : list A) (i : Z) (v : A) : result (list A) :=
  if (0 <=? i) && (i <? Z.of_nat (length l)) then Ok (<[Z.to_nat i := v]> l)
  else Undefined.

(** ** Object representations (little-endian) *)

Definition u8_at (w : Z) (k : Z) : Z := Z.land (Z.shiftr w (8 * k)) 255.
Definition u16_at (w : Z) (k : Z) : Z := Z.land (Z.shiftr w (16 * k)) 65535.
Definition u32_at (w : Z) (k : Z) : Z := Z.land (Z.shiftr w (32 * k)) 4294967295.

(** [std::bit_cast<color_type<4>>(c)] for a [uint32_t] [c]. *)
Definition bytes_of_u32 (c : Z) : list Z :=
  [u8_at c 0; u8_at c 1; u8_at c 2; u8_at c 3].

Definition bytes_of_u64 (w : Z) : list Z :=
  [u8_at w 0; u8_at w 1; u8_at w 2; u8_at w 3;
   u8_at w 4; u8_at w 5; u8_at w 6; u8_at w 7].

(** The bytes of an array of words, lowest address first. *)
Definition source_bytes (source : list Z) : list Z :=
  flat_map bytes_of_u64 source.

(** ** The header *)

(** [struct header]; the two padding members are never read or written by the
    decoder and are left out. *)
Record header : Type := Header {
  type : Z;       (* uint8_t  *)
  bpp : Z;        (* uint8_t  *)
  bit_count : Z;  (* uint32_t *)
  width : Z;      (* uint16_t *)
  height : Z;     (* uint16_t *)
  color0 : Z;     (* uint32_t *)
  color1 : Z      (* uint32_t *)
}.

(** Every member within the range of its C++ type. *)
Definition header_wf (head : header) : Prop :=
  0 <= type head < 2 ^ 8 /\ 0 <= bpp head < 2 ^ 8 /\
  0 <= bit_count head < 2 ^ 32 /\
  0 <= width head < 2 ^ 16 /\ 0 <= height head < 2 ^ 16 /\
  0 <= color0 head < 2 ^ 32 /\ 0 <= color1 head < 2 ^ 32.

Definition set_dimensions (head : header) (w h : Z) : header :=
  Header (type head) (bpp head) (bit_count head) w h (color0 head) (color1 head).

Definition set_colors (head : header) (c0 c1 : Z) : header :=
  Header (type head) (bpp head) (bit_count head) (width head) (height head) c0 c1.

Definition get_header (source : list Z) : traced header :=
  temp ← read_word source 0;
  let result := Header (u8_at temp 0) (u8_at temp 1) (u32_at temp 1) 0 0 0 0 in
  result ← (if 0 <? type result
            then temp ← read_word source 1;
                 mret (set_dimensions result (u16_at temp 0) (u16_at temp 1))
            else mret result);
  result ← (if type result =? 2
            then temp ← read_word source 2;
                 mret (set_colors result (u32_at temp 0) (u32_at temp 1))
            else mret result);
  mret result.

Definition is_image (source : list Z) : traced bool :=
  temp0 ← read_word source 0;
  let type := u8_at temp0 0 in
  mret ((type =? 1) || (type =? 2)).

Definition get_width (source : list Z) : traced Z :=
  image ← is_image source;
  if negb image then mret (-1)
  else temp ← read_word source 1; mret (u16_at temp 0).

Definition get_height (source : list Z) : traced Z :=
  image ← is_image source;
  if negb image then mret (-1)
  else temp ← read_word source 1; mret (u16_at temp 1).

(** ** Element counts *)

(** [get_element_count(const header&)]. *)
Definition get_element_count (head : header) : result Z :=
  if type head =? 0
  then Throw "Can't be used on non-image payloads without a type."
  else int_mul (width head) (height head).

(** [get_element_count<user_type>(const header&)]; [sizeof_T] is
    [sizeof(user_type)]. *)
Definition get_element_count_T (sizeof_T : positive) (head : header) : result Z :=
  if type head =? 2 then get_element_count head
  else
    let byte_count := to_int (Z.quot (bit_count head) 8) in
    Ok (to_int (Z.quot (to_size_t byte_count) (Z.pos sizeof_T))).

(** The two overloads on the word array. *)
Definition get_element_count_T_source (sizeof_T : positive) (source : list Z)
  : traced Z :=
  head ← get_header source; lift (get_element_count_T sizeof_T head).

Definition get_element_count_source (source : list Z) : traced Z :=
  head ← get_header source; lift (get_element_count head).

(** [detail::get_byte_count_from_bit_count]. *)
Definition get_byte_count_from_bit_count (bit_count : Z) : Z :=
  let byte_count := Z.quot bit_count 8 in
  if Z.rem bit_count 8 >? 0 then byte_count + 1 else byte_count.

(** ** The palette *)

(** The loop of [get_sized_color_pair]: [remaining] iterations from index
    [i], copying one component of each colour per iteration. *)
Fixpoint copy_components (remaining : nat) (i : Z)
    (head_color0 head_color1 color0 color1 : list Z)
  : result (list Z * list Z) :=
  match remaining with
  | O => Ok (color0, color1)
  | S remaining' =>
      c0 ← read_at head_color0 i;
      color0' ← write_at color0 i c0;
      c1 ← read_at head_color1 i;
      color1' ← write_at color1 i c1;
      copy_components remaining' (i + 1) head_color0 head_color1 color0' color1'
  end.

(** [detail::get_sized_color_pair<bpp>]. *)
Definition get_sized_color_pair (bpp : Z) (head : header)
  : result (list Z * list Z) :=
  let head_color0 := bytes_of_u32 (color0 head) in
  let head_color1 := bytes_of_u32 (color1 head) in
  let color0 := replicate (Z.to_nat bpp) 0 in
  let color1 := replicate (Z.to_nat bpp) 0 in
  copy_components (Z.to_nat bpp) 0 head_color0 head_color1 color0 color1.

(** ** Bit-plane reconstruction *)

Section reconstruct.
Context {color_type T : Type}.
(** [std::bit_cast<T>] on a colour. *)
Variable bit_cast : color_type -> T.

(** One iteration of the loop of [reconstruct], at index [i]. *)
Definition reconstruct_step (i : Z) (source : list Z) (target : list T)
    (color0 color1 : color_type) : result (list T) :=
  let byte_index := Z.quot i 8 in
  let bit_index := Z.rem i 8 in
  let left_shift_amount := 7 - bit_index in
  let mask := (Z.shiftl 1 left_shift_amount) mod 256 in
  byte ← read_at source byte_index;
  let binary_value := negb (Z.shiftr (Z.land byte mask) left_shift_amount =? 0) in
  let replacement_color := bit_cast (if binary_value then color1 else color0) in
  write_at target i replacement_color.

(** [remaining] iterations from index [i]. *)
Fixpoint reconstruct_from (remaining : nat) (i : Z) (source : list Z)
    (target : list T) (color0 color1 : color_type) : result (list T) :=
  match remaining with
  | O => Ok target
  | S remaining' =>
      target' ← reconstruct_step i source target color0 color1;
      reconstruct_from remaining' (i + 1) source target' color0 color1
  end.

(** [detail::reconstruct]: [for (int i = 0; i < element_count; ++i)]. *)
Definition reconstruct (element_count : Z) (source : list Z)
    (target : list T) (color0 color1 : color_type) : result (list T) :=
  reconstruct_from (Z.to_nat element_count) 0 source target color0 color1.
End reconstruct.

(** ** Decoding *)

(** An element of the caller's type is the list of its bytes; [count]
    consecutive elements of [sz] bytes each laid over [bytes]. *)
Fixpoint elements_of_bytes (sz : nat) (count : nat) (bytes : list Z)
  : list (list Z) :=
  match count with
  | O => []
  | S count' => take sz bytes :: elements_of_bytes sz count' (drop sz bytes)
  end.

(** [std::memcpy(dst, src, n)] on the bytes reachable through the two
    pointers. *)
Definition memcpy (dst src : list Z) (n : Z) : result (list Z) :=
  if (n <=? Z.of_nat (length src)) && (n <=? Z.of_nat (length dst))
  then Ok (take (Z.to_nat n) src ++ drop (Z.to_nat n) dst)
  else Undefined.

(** [reinterpret_cast<const uint8_t*>(&source[3])]: the bytes from word 3 to
    the end of the array. *)
Definition data_start_ptr (source : list Z) : result (list Z) :=
  if (3 <=? length source)%nat then Ok (source_bytes (drop 3 source))
  else Undefined.

(** [std::vector<user_type> result(element_count)]: value-initialised
    elements; a negative count converts to a size above [max_size]. *)
Definition new_vector (sz : nat) (element_count : Z) : result (list (list Z)) :=
  if element_count <? 0 then Throw "vector too long"
  else Ok (replicate (Z.to_nat element_count) (replicate sz 0)).

(** [std::memcpy(vec.data(), src, n)] into a vector: a vector of no
    element owns no storage and its [data()] is null, which [std::memcpy] may
    not be given, not even to copy nothing. *)
Definition memcpy_vector (vec : list (list Z)) (src : list Z) (n : Z)
  : result (list Z) :=
  match vec with
  | [] => Undefined
  | _ :: _ => memcpy (concat vec) src n
  end.

Definition decode_to_vector (sizeof_T : positive) (source : list Z)
  : result (list (list Z)) :=
  let sz := Pos.to_nat sizeof_T in
  head ← value (get_header source);
  element_count ← get_element_count_T sizeof_T head;
  let byte_count := to_int (to_size_t (to_size_t element_count * Z.pos sizeof_T)) in
  result ← new_vector sz element_count;
  data ← data_start_ptr source;
  if type head =? 2 then
    let bpp := Z.pos sizeof_T in
    '(color0, color1) ← get_sized_color_pair bpp head;
    reconstruct id element_count data result color0 color1
  else
    bytes ← memcpy_vector result data (to_size_t byte_count);
    Ok (elements_of_bytes sz (length result) bytes).

(** [dst] is the caller's storage, as the elements it holds before the call;
    the outcome is what it holds after. *)
Definition decode_into_pointer (sizeof_T : positive) (source : list Z)
    (dst : list (list Z)) : result (list (list Z)) :=
  let sz := Pos.to_nat sizeof_T in
  head ← value (get_header source);
  element_count ← get_element_count_T sizeof_T head;
  let byte_count := to_int (to_size_t (to_size_t element_count * Z.pos sizeof_T)) in
  data ← data_start_ptr source;
  if type head =? 2 then
    let bpp := Z.pos sizeof_T in
    '(color0, color1) ← get_sized_color_pair bpp head;
    reconstruct id element_count data dst color0 color1
  else
    bytes ← memcpy (concat dst) data (to_size_t byte_count);
    Ok (elements_of_bytes sz (length dst) bytes).

(** [x] rounded up to a multiple of [a]. *)
Definition round_up (x a : Z) : Z := a * ((x + a - 1) / a).

(** [alignof(user_type)], a power of two: [align_T] is its exponent. *)
Definition alignof (align_T : nat) : Z := 2 ^ Z.of_nat align_T.

(** [offsetof(detail::wrapper_type<user_type, count>, m_data)]: the three
    words of filler, then the padding that [alignas(user_type)] asks for. *)
Definition wrapper_data_offset (align_T : nat) : Z :=
  round_up 24 (alignof align_T).

(** [sizeof(detail::wrapper_type<user_type, count>)] for a [user_type] of
    [sz] bytes: the array, which when it has no element still occupies one
    byte, follows at its offset, and the whole is rounded up to the alignment
    of the structure, that of a word or of [user_type]. *)
Definition sizeof_wrapper (sz : Z) (align_T : nat) (count : Z) : Z :=
  round_up (wrapper_data_offset align_T + Z.max 1 (sz * count))
           (Z.max 8 (alignof align_T)).

(** [std::bit_cast<wrapper_type<user_type, count>>(source).m_data], as bytes.
    The compiler rejects an array type of negative size and a [bit_cast]
    between types of different sizes. *)
Definition wrapper_data (sz : Z) (align_T : nat) (count : Z) (source : list Z)
  : result (list Z) :=
  if count <? 0
  then StaticAssert "std::array: the size is negative"
  else if sizeof_wrapper sz align_T count =? 8 * Z.of_nat (length source)
  then Ok (take (Z.to_nat (sz * count))
                (drop (Z.to_nat (wrapper_data_offset align_T))
                      (source_bytes source)))
  else StaticAssert "std::bit_cast: source and target differ in size".

(** [decode_to_array<user_type, head, array_size, element_count>]: [head] and
    [element_count] are template arguments, [user_type] has [sizeof_T] bytes
    and alignment [alignof align_T].  What the compiler checks comes before
    anything that runs: the two [static_assert]s and, in either branch, the
    wrapper type and its [bit_cast]; the index plane is a wrapper of
    [uint8_t]. *)
Definition decode_to_array (sizeof_T : positive) (align_T : nat) (head : header)
    (element_count : Z) (source : list Z) : result (list (list Z)) :=
  let sz := Pos.to_nat sizeof_T in
  if negb (element_count >? 0)
  then StaticAssert "Not enough bytes to even fill one of those types."
  else if type head =? 2 then
    if negb (Z.pos sizeof_T =? bpp head)
    then StaticAssert "User type has different size than bpp"
    else
      let byte_count := get_byte_count_from_bit_count (to_int (bit_count head)) in
      interm ← wrapper_data 1 0 byte_count source;
      '(color0, color1) ← get_sized_color_pair (bpp head) head;
      let result := replicate (Z.to_nat element_count) (replicate sz 0) in
      reconstruct id element_count interm result color0 color1
  else
    bytes ← wrapper_data (Z.pos sizeof_T) align_T element_count source;
    Ok (elements_of_bytes sz (Z.to_nat element_count) bytes).

(** [element_count] left to its default, [get_element_count<user_type>(head)],
    which as a template argument has to be a constant: where its evaluation
    throws or overflows the instantiation is rejected. *)
Definition decode_to_array_default (sizeof_T : positive) (align_T : nat)
    (head : header) (source : list Z) : result (list (list Z)) :=
  match get_element_count_T sizeof_T head with
  | Ok element_count => decode_to_array sizeof_T align_T head element_count source
  | _ => StaticAssert "element_count is not a constant expression"
  end.

(** ** Test vectors *)

Definition word0 (type bpp bit_count : Z) : Z := type + 2 ^ 8 * bpp + 2 ^ 32 * bit_count.
Definition word1 (width height : Z) : Z := width + 2 ^ 16 * height.
Definition word2 (color0 color1 : Z) : Z := color0 + 2 ^ 32 * color1.

(** The Image of the scenario: 2 x 1 pixels of 3 bytes, 48 payload bits. *)
Definition image_2x1 : list Z :=
  [word0 1 3 48; word1 2 1; 0; 0x605040302010].

(** A DualColorImage of 8 x 1 pixels with [bpp = 1]. *)
Definition dual_8x1 : list Z :=
  [word0 2 1 8; word1 8 1; word2 0x44332211 0xDDCCBBAA; 0xB0].


(** The object representation of a [struct header], as the three words it
    occupies: [type], [bpp], two bytes of padding, [bit_count]; [width],
    [height], four bytes of padding; [color0], [color1].  Padding is zero. *)
Definition header_words (head : header) : list Z :=
  [word0 (type head) (bpp head) (bit_count head);
   word1 (width head) (height head);
   word2 (color0 head) (color1 head)].

(** ** [tools.h] *)

(** [a + b] on two [int]s. *)
Definition int_add (a b : Z) : result Z :=
  if (int_min <=? a + b) && (a + b <=? int_max) then Ok (a + b) else Undefined.

(** [get_symbol_count<color_type>]; [sizeof_color] is [sizeof(color_type)].
    The [int] argument is converted to [size_t] for [/] and [%], the results
    back to [int]. *)
Definition get_symbol_count (sizeof_color : positive) (byte_count : Z) : result Z :=
  let complete_symbols :=
    to_int (Z.quot (to_size_t byte_count) (Z.pos sizeof_color)) in
  let leftover_bytes :=
    to_int (Z.rem (to_size_t byte_count) (Z.pos sizeof_color)) in
  let symbol_count := complete_symbols in
  if leftover_bytes >? 0 then int_add symbol_count 1 else Ok symbol_count.

(** Conversion to a signed integer type of [bits] bits (modular). *)
Definition to_signed (bits : Z) (z : Z) : Z :=
  (z + 2 ^ (bits - 1)) mod 2 ^ bits - 2 ^ (bits - 1).

(** [abs<T>] for a signed integer type [T] of [bits] bits:
    [value < T{} ? -value : value].  A [T] narrower than [int] is promoted
    to [int] for the negation and the result converted back to [T]; on [int]
    and wider types the negation of the least value overflows. *)
Definition abs_signed (bits : Z) (value : Z) : result Z :=
  if value <? 0 then
    if bits <? 32 then Ok (to_signed bits (- value))
    else if value =? - 2 ^ (bits - 1) then Undefined
    else Ok (- value)
  else Ok value.

(** [abs<T>] for an unsigned integer type: [return value]. *)
Definition abs_unsigned (value : Z) : Z := value.

(** * Properties *)

(** ** Integer conversions and field extraction *)

Lemma to_int_id (z : Z) : int_min <= z <= int_max -> to_int z = z.
Proof.
  unfold int_min, int_max, to_int. intros Hz.
  rewrite Z.mod_small by lia. lia.
Qed.

Lemma to_size_t_id (z : Z) : 0 <= z < 2 ^ 64 -> to_size_t z = z.
Proof. unfold to_size_t. intros Hz. apply Z.mod_small. lia. Qed.

Lemma land_ones_range (x : Z) (n : Z) : 0 <= n -> 0 <= Z.land x (Z.ones n) < 2 ^ n.
Proof.
  intros Hn. rewrite Z.land_ones by lia. apply Z.mod_pos_bound.
  apply Z.pow_pos_nonneg; lia.
Qed.

Lemma u8_at_range (w k : Z) : 0 <= u8_at w k < 2 ^ 8.
Proof. unfold u8_at. change 255 with (Z.ones 8). apply land_ones_range. lia. Qed.

Lemma u16_at_range (w k : Z) : 0 <= u16_at w k < 2 ^ 16.
Proof. unfold u16_at. change 65535 with (Z.ones 16). apply land_ones_range. lia. Qed.

Lemma u32_at_range (w k : Z) : 0 <= u32_at w k < 2 ^ 32.
Proof. unfold u32_at. change 4294967295 with (Z.ones 32). apply land_ones_range. lia. Qed.

Lemma int_mul_fits (a b : Z) :
  int_min <= a * b <= int_max -> int_mul a b = Ok (a * b).
Proof.
  intros [Hlo Hhi]. unfold int_mul.
  apply Z.leb_le in Hlo, Hhi. by rewrite Hlo, Hhi.
Qed.

Lemma int_mul_not_throw (a b : Z) (msg : string) : int_mul a b <> Throw msg.
Proof. unfold int_mul. by destruct (_ && _). Qed.

(** ** Byte count of the index plane *)

(** C8: for every [bit_count >= 0] the byte count is [ceil(bit_count / 8)],
    the least number of whole bytes that hold [bit_count] bits: a count that
    is not a multiple of 8 rounds up to the next byte, and 0 bits take 0
    bytes. *)
Theorem get_byte_count_from_bit_count_ceil (bit_count : Z) :
  0 <= bit_count ->
  let byte_count := get_byte_count_from_bit_count bit_count in
  byte_count = (bit_count + 7) / 8 /\
  8 * (byte_count - 1) < bit_count <= 8 * byte_count /\
  (bit_count mod 8 <> 0 -> byte_count = bit_count / 8 + 1) /\
  (bit_count mod 8 = 0 -> byte_count = bit_count / 8) /\
  get_byte_count_from_bit_count 0 = 0.
Proof.
  intros Hnn. cbv zeta. unfold get_byte_count_from_bit_count.
  rewrite Z.quot_div_nonneg, Z.rem_mod_nonneg by lia.
  pose proof (Z.div_mod bit_count 8 ltac:(lia)) as Hdm.
  pose proof (Z.mod_pos_bound bit_count 8 ltac:(lia)) as Hm.
  assert (Hceil : (bit_count + 7) / 8 =
                  if bit_count mod 8 >? 0 then bit_count / 8 + 1 else bit_count / 8).
  { destruct (bit_count mod 8 >? 0) eqn:Hgt.
    - apply Z.gtb_lt in Hgt. symmetry. apply Z.div_unique with (r := bit_count mod 8 - 1); lia.
    - assert (bit_count mod 8 = 0) as H0 by (rewrite Z.gtb_ltb in Hgt; apply Z.ltb_ge in Hgt; lia).
      symmetry. apply Z.div_unique with (r := 7); lia. }
  destruct (bit_count mod 8 >? 0) eqn:Hgt.
  - apply Z.gtb_lt in Hgt. repeat split; lia.
  - rewrite Z.gtb_ltb in Hgt. apply Z.ltb_ge in Hgt. repeat split; lia.
Qed.

Lemma get_byte_count_from_bit_count_ceil_witness :
  0 <= 13 /\ get_byte_count_from_bit_count 13 = 2.
Proof.
  split; [lia |].
  destruct (get_byte_count_from_bit_count_ceil 13 ltac:(lia)) as [H _].
  rewrite H. reflexivity.
Defined.

(** ** Element counts *)

(** C5: on a header of kind Generic ([type = 0]) the type-agnostic
    [get_element_count] throws; it returns no count. *)
Theorem get_element_count_generic_throws (head : header) :
  type head = 0 ->
  get_element_count head
    = Throw "Can't be used on non-image payloads without a type." /\
  forall n : Z, get_element_count head <> Ok n.
Proof.
  intros Hty. unfold get_element_count. rewrite Hty. simpl. done.
Qed.

Lemma get_element_count_generic_throws_witness :
  get_element_count (Header 0 0 64 0 0 0 0)
    = Throw "Can't be used on non-image payloads without a type.".
Proof.
  apply (get_element_count_generic_throws (Header 0 0 64 0 0 0 0)). reflexivity.
Defined.

Lemma get_element_count_fits (head : header) :
  header_wf head -> type head <> 0 ->
  width head * height head <= int_max ->
  get_element_count head = Ok (width head * height head).
Proof.
  intros (_ & _ & _ & Hw & Hh & _) Hty Hfit.
  unfold get_element_count.
  apply Z.eqb_neq in Hty. rewrite Hty.
  apply int_mul_fits. unfold int_min. nia.
Qed.

(** C4, as the code has it: on a header of any kind but Generic, whose
    [width * height] fits an [int], [get_element_count] returns
    [width * height]; with a zero width or a zero height that is 0. *)
Theorem get_element_count_image (head : header) :
  header_wf head -> type head <> 0 ->
  (width head * height head <= int_max ->
   get_element_count head = Ok (width head * height head)) /\
  (width head = 0 \/ height head = 0 -> get_element_count head = Ok 0).
Proof.
  intros Hwf Hty. split.
  - by apply get_element_count_fits.
  - intros Hz.
    assert (width head * height head = 0) as Hp by (destruct Hz as [-> | ->]; lia).
    rewrite <- Hp. apply get_element_count_fits; [done | done |].
    rewrite Hp. unfold int_max. lia.
Qed.

Lemma get_element_count_image_witness :
  get_element_count (Header 1 3 144 3 2 0 0) = Ok 6 /\
  get_element_count (Header 2 1 0 0 7 0 0) = Ok 0.
Proof.
  split.
  - refine (proj1 (get_element_count_image (Header 1 3 144 3 2 0 0) _ _) _).
    + vm_compute. intuition congruence.
    + simpl. lia.
    + vm_compute. congruence.
  - refine (proj2 (get_element_count_image (Header 2 1 0 0 7 0 0) _ _) _).
    + vm_compute. intuition congruence.
    + simpl. lia.
    + left. reflexivity.
Defined.

(** C4 as stated fails where the product leaves the range of [int]: a
    65535 x 65535 image. *)
Lemma get_element_count_image_overflow :
  let head := Header 1 4 0 65535 65535 0 0 in
  header_wf head /\ type head <> 0 /\
  get_element_count head = Undefined /\
  get_element_count head <> Ok (width head * height head).
Proof. vm_compute. intuition congruence. Qed.

Lemma get_element_count_T_bytes (sizeof_T : positive) (head : header) :
  0 <= bit_count head < 2 ^ 32 -> type head <> 2 ->
  get_element_count_T sizeof_T head = Ok (bit_count head / 8 / Z.pos sizeof_T).
Proof.
  intros Hbits Hty. unfold get_element_count_T.
  apply Z.eqb_neq in Hty. rewrite Hty.
  rewrite (Z.quot_div_nonneg (bit_count head) 8) by lia.
  assert (0 <= bit_count head / 8 < 2 ^ 29) as Hbytes.
  { split; [apply Z.div_pos; lia |]. apply Z.div_lt_upper_bound; lia. }
  rewrite (to_int_id (bit_count head / 8)) by (unfold int_min, int_max; lia).
  rewrite to_size_t_id by lia.
  rewrite Z.quot_div_nonneg by lia.
  assert (0 <= bit_count head / 8 / Z.pos sizeof_T <= bit_count head / 8) as Hn.
  { split; [apply Z.div_pos; lia |]. apply Z.div_le_upper_bound; nia. }
  rewrite to_int_id by (unfold int_min, int_max; lia).
  reflexivity.
Qed.

(** C3, as the code has it: on a DualColorImage header the typed count is
    the type-agnostic count whatever the element size, which is
    [width * height] when that fits an [int]; on any other header it is
    [floor(bit_count / 8) / sizeof(T)], rounded down: a partial trailing
    element is dropped, not reported. *)
Theorem get_element_count_T_spec (sizeof_T : positive) (head : header) :
  header_wf head ->
  (type head = 2 ->
     get_element_count_T sizeof_T head = get_element_count head /\
     (width head * height head <= int_max ->
      get_element_count_T sizeof_T head = Ok (width head * height head))) /\
  (type head <> 2 ->
     let n := bit_count head / 8 / Z.pos sizeof_T in
     get_element_count_T sizeof_T head = Ok n /\
     n * Z.pos sizeof_T <= bit_count head / 8 < (n + 1) * Z.pos sizeof_T).
Proof.
  intros Hwf. split.
  - intros Hty.
    assert (get_element_count_T sizeof_T head = get_element_count head) as Hdel.
    { unfold get_element_count_T. by rewrite Hty. }
    split; [exact Hdel |]. intros Hfit. rewrite Hdel.
    apply get_element_count_fits; [exact Hwf | lia | exact Hfit].
  - intros Hty. cbv zeta. split.
    + apply get_element_count_T_bytes; [apply Hwf | exact Hty].
    + pose proof (Z.div_mod (bit_count head / 8) (Z.pos sizeof_T) ltac:(lia)) as Hdm.
      pose proof (Z.mod_pos_bound (bit_count head / 8) (Z.pos sizeof_T) ltac:(lia)) as Hm.
      nia.
Qed.

Lemma get_element_count_T_spec_witness :
  get_element_count_T 4 (Header 2 4 6 3 2 255 0) = Ok 6 /\
  get_element_count_T 4 (Header 0 0 88 0 0 0 0) = Ok 2.
Proof.
  split.
  - refine (proj2 (proj1 (get_element_count_T_spec 4 (Header 2 4 6 3 2 255 0) _) _) _).
    + vm_compute. intuition congruence.
    + reflexivity.
    + vm_compute. congruence.
  - refine (proj1 (proj2 (get_element_count_T_spec 4 (Header 0 0 88 0 0 0 0) _) _)).
    + vm_compute. intuition congruence.
    + simpl. lia.
Defined.

(** C3 as stated fails on a DualColorImage header whose product leaves the
    range of [int]. *)
Lemma get_element_count_T_overflow :
  let head := Header 2 1 0 65535 65535 0 0 in
  header_wf head /\ type head = 2 /\
  get_element_count_T 1 head = Undefined /\
  get_element_count_T 1 head <> Ok (width head * height head).
Proof. vm_compute. intuition congruence. Qed.

(** ** Header parsing *)

(** C6: parsing reads word 0 always, word 1 exactly when the kind decoded
    from word 0 is non-zero, and word 2 exactly when that kind is 2 (and word
    1 was there to read); a Generic header is parsed from word 0 alone,
    whatever follows it, so a buffer of one word is enough. *)
Theorem get_header_reads (w0 : Z) (rest : list Z) :
  let kind := u8_at w0 0 in
  reads (get_header (w0 :: rest)) =
    [0%nat] ++ (if 0 <? kind then [1%nat] else [])
            ++ (if (kind =? 2) && negb (bool_decide (rest = [])) then [2%nat] else []) /\
  (kind = 0 ->
   get_header (w0 :: rest)
     = Traced (Ok (Header 0 (u8_at w0 1) (u32_at w0 1) 0 0 0 0)) [0%nat]).
Proof.
  cbv zeta. split.
  - unfold get_header, mbind, traced_bind, mret, traced_ret, read_word. simpl.
    destruct (0 <? u8_at w0 0) eqn:Hpos; destruct (u8_at w0 0 =? 2) eqn:Htwo; simpl.
    + destruct rest as [| w1 rest]; simpl; [done |].
      rewrite Htwo. simpl. by destruct rest.
    + destruct rest as [| w1 rest]; simpl; [done |].
      by rewrite Htwo.
    + apply Z.ltb_ge in Hpos. apply Z.eqb_eq in Htwo. lia.
    + by rewrite Htwo.
  - intros Hkind.
    unfold get_header, mbind, traced_bind, mret, traced_ret, read_word. simpl.
    rewrite Hkind. reflexivity.
Qed.

Lemma get_header_reads_witness :
  get_header [word0 0 0 64]
    = Traced (Ok (Header 0 0 64 0 0 0 0)) [0%nat].
Proof.
  refine (proj2 (get_header_reads (word0 0 0 64) []) _). reflexivity.
Defined.

Lemma get_element_count_throws_iff (head : header) :
  (exists msg, get_element_count head = Throw msg) <-> type head = 0.
Proof.
  unfold get_element_count. split.
  - intros [msg Hthrow]. destruct (type head =? 0) eqn:Hty.
    + by apply Z.eqb_eq.
    + by apply int_mul_not_throw in Hthrow.
  - intros ->. simpl. eauto.
Qed.

(** C10, as the code has it: on a word sequence whose kind byte is none of 0,
    1 and 2, [is_image] answers false, yet the type-agnostic
    [get_element_count] does not throw (it throws for kind 0 only) and
    computes the count as it does for an Image header of the same
    dimensions: [width * height] when that fits an [int]. *)
Theorem get_element_count_unrecognized_kind (w0 w1 : Z) (rest : list Z) :
  let source := w0 :: w1 :: rest in
  let head := Header (u8_at w0 0) (u8_at w0 1) (u32_at w0 1)
                     (u16_at w1 0) (u16_at w1 1) 0 0 in
  type head <> 0 -> type head <> 1 -> type head <> 2 ->
  value (get_header source) = Ok head /\
  value (is_image source) = Ok false /\
  (forall msg, get_element_count head <> Throw msg) /\
  (forall h, (exists msg, get_element_count h = Throw msg) <-> type h = 0) /\
  get_element_count head
    = get_element_count (Header 1 (bpp head) (bit_count head)
                                (width head) (height head) 0 0) /\
  (width head * height head <= int_max ->
   get_element_count head = Ok (width head * height head) /\
   value (get_element_count_source source) = Ok (width head * height head)).
Proof.
  cbv zeta. simpl. intros H0 H1 H2.
  pose proof (u8_at_range w0 0) as Hkind.
  assert (value (get_header (w0 :: w1 :: rest))
          = Ok (Header (u8_at w0 0) (u8_at w0 1) (u32_at w0 1)
                       (u16_at w1 0) (u16_at w1 1) 0 0)) as Hhead.
  { unfold get_header, mbind, traced_bind, mret, traced_ret, read_word. simpl.
    assert ((0 <? u8_at w0 0) = true) as -> by (apply Z.ltb_lt; lia).
    simpl. apply Z.eqb_neq in H2. by rewrite H2. }
  assert (forall w h b c,
            get_element_count (Header (u8_at w0 0) b c w h 0 0) = int_mul w h) as Hcount.
  { intros. unfold get_element_count. simpl. apply Z.eqb_neq in H0. by rewrite H0. }
  split; [exact Hhead |]. split.
  { unfold is_image, mbind, traced_bind, mret, traced_ret, read_word. simpl.
    apply Z.eqb_neq in H1, H2. by rewrite H1, H2. }
  split.
  { intros msg. rewrite Hcount. apply int_mul_not_throw. }
  split; [apply get_element_count_throws_iff |].
  split; [by rewrite Hcount |].
  intros Hfit.
  pose proof (u16_at_range w1 0) as Hw. pose proof (u16_at_range w1 1) as Hh.
  assert (int_mul (u16_at w1 0) (u16_at w1 1) = Ok (u16_at w1 0 * u16_at w1 1)) as Hmul.
  { apply int_mul_fits. unfold int_min. nia. }
  split; [by rewrite Hcount |].
  unfold get_element_count_source, mbind, traced_bind, lift.
  rewrite Hhead. simpl. by rewrite Hcount.
Qed.

Lemma get_element_count_unrecognized_kind_witness :
  value (is_image [word0 3 4 0; word1 5 7]) = Ok false /\
  value (get_element_count_source [word0 3 4 0; word1 5 7]) = Ok 35.
Proof.
  pose proof (get_element_count_unrecognized_kind (word0 3 4 0) (word1 5 7) [])
    as Hkind.
  cbv zeta in Hkind.
  destruct Hkind as (_ & Himage & _ & _ & _ & Hcount);
    [vm_compute; congruence | vm_compute; congruence | vm_compute; congruence |].
  split; [exact Himage |].
  apply Hcount. vm_compute. congruence.
Defined.

(** C10 as stated fails where the product leaves the range of [int]. *)
Lemma get_element_count_unrecognized_kind_overflow :
  let source := [word0 3 4 0; word1 65535 65535] in
  value (get_header source) = Ok (Header 3 4 0 65535 65535 0 0) /\
  value (is_image source) = Ok false /\
  get_element_count (Header 3 4 0 65535 65535 0 0) = Undefined /\
  get_element_count (Header 3 4 0 65535 65535 0 0) <> Ok (65535 * 65535).
Proof. vm_compute. intuition congruence. Qed.

(** ** The palette *)

(** C9: for [bpp] from 1 to 4 the palette is the first [bpp] bytes of the
    stored [color0] and the first [bpp] bytes of the stored [color1], lowest
    address first, each byte as it is stored. *)
Theorem get_sized_color_pair_spec (bpp : Z) (head : header) :
  1 <= bpp <= 4 ->
  get_sized_color_pair bpp head
    = Ok (take (Z.to_nat bpp) (bytes_of_u32 (color0 head)),
          take (Z.to_nat bpp) (bytes_of_u32 (color1 head))) /\
  (forall i : nat, (i < Z.to_nat bpp)%nat ->
     take (Z.to_nat bpp) (bytes_of_u32 (color0 head)) !! i
       = Some (u8_at (color0 head) (Z.of_nat i)) /\
     take (Z.to_nat bpp) (bytes_of_u32 (color1 head)) !! i
       = Some (u8_at (color1 head) (Z.of_nat i))).
Proof.
  intros Hbpp.
  assert (bpp = 1 \/ bpp = 2 \/ bpp = 3 \/ bpp = 4) as Hcases by lia.
  split.
  - destruct Hcases as [-> | [-> | [-> | ->]]]; reflexivity.
  - intros i Hi.
    destruct Hcases as [-> | [-> | [-> | ->]]];
      repeat (destruct i as [| i]; [split; reflexivity |]); simpl in Hi; lia.
Qed.

Lemma get_sized_color_pair_spec_witness :
  get_sized_color_pair 3 (Header 2 3 8 8 1 0x44332211 0xDDCCBBAA)
    = Ok ([0x11; 0x22; 0x33], [0xAA; 0xBB; 0xCC]).
Proof.
  refine (proj1 (get_sized_color_pair_spec 3
                   (Header 2 3 8 8 1 0x44332211 0xDDCCBBAA) _)).
  lia.
Defined.

(** ** Bit-plane reconstruction *)

Lemma testbit_b2z_above (b : bool) (n : Z) : 0 < n -> Z.testbit (Z.b2z b) n = false.
Proof.
  intros Hn. destruct b; simpl.
  - destruct n as [| p | p]; [lia | by destruct p | done].
  - apply Z.bits_0.
Qed.

(** The selector computed by [reconstruct] is bit [k] of the byte. *)
Lemma selector_bit (byte k : Z) :
  0 <= k <= 7 ->
  negb (Z.shiftr (Z.land byte ((Z.shiftl 1 k) mod 256)) k =? 0) = Z.testbit byte k.
Proof.
  intros Hk.
  rewrite Z.shiftl_1_l.
  assert (2 ^ k < 256) as Hlt.
  { change 256 with (2 ^ 8). apply Z.pow_lt_mono_r; lia. }
  rewrite Z.mod_small by (split; [apply Z.pow_nonneg; lia | exact Hlt]).
  assert (Z.shiftr (Z.land byte (2 ^ k)) k = Z.b2z (Z.testbit byte k)) as ->.
  { apply Z.bits_inj'. intros n Hn.
    rewrite Z.shiftr_spec, Z.land_spec, Z.pow2_bits_eqb by lia.
    destruct (Z.eqb_spec k (n + k)) as [Heq | Hne].
    - assert (n = 0) as -> by lia.
      by rewrite andb_true_r, Z.add_0_l, Z.b2z_bit0.
    - rewrite andb_false_r. symmetry. apply testbit_b2z_above. lia. }
  by destruct (Z.testbit byte k).
Qed.

Section reconstruct_facts.
Context {color_type T : Type}.
Variable bit_cast : color_type -> T.

Lemma reconstruct_step_spec (i : Z) (source : list Z) (target : list T)
    (c0 c1 : color_type) :
  0 <= i < Z.of_nat (length target) -> i < 8 * Z.of_nat (length source) ->
  exists byte,
    source !! Z.to_nat (i / 8) = Some byte /\
    reconstruct_step bit_cast i source target c0 c1
      = Ok (<[Z.to_nat i := bit_cast (if Z.testbit byte (7 - i mod 8)
                                      then c1 else c0)]> target).
Proof.
  intros Hi Hsrc. unfold reconstruct_step.
  rewrite Z.quot_div_nonneg, Z.rem_mod_nonneg by lia.
  pose proof (Z.mod_pos_bound i 8 ltac:(lia)) as Hmod.
  assert (0 <= i / 8 < Z.of_nat (length source)) as Hbyte.
  { split; [apply Z.div_pos; lia | apply Z.div_lt_upper_bound; lia]. }
  destruct (lookup_lt_is_Some_2 source (Z.to_nat (i / 8)) ltac:(lia))
    as [byte Hlookup].
  exists byte. split; [exact Hlookup |].
  unfold read_at.
  assert ((i / 8 <? 0) = false) as -> by (apply Z.ltb_ge; lia).
  rewrite Hlookup. simpl.
  rewrite selector_bit by lia.
  unfold write_at.
  assert ((0 <=? i) = true) as -> by (apply Z.leb_le; lia).
  assert ((i <? Z.of_nat (length target)) = true) as -> by (apply Z.ltb_lt; lia).
  reflexivity.
Qed.

Lemma reconstruct_from_spec (remaining : nat) :
  forall (i : Z) (source : list Z) (target : list T) (c0 c1 : color_type),
  0 <= i ->
  i + Z.of_nat remaining <= Z.of_nat (length target) ->
  i + Z.of_nat remaining <= 8 * Z.of_nat (length source) ->
  exists out,
    reconstruct_from bit_cast remaining i source target c0 c1 = Ok out /\
    length out = length target /\
    (forall j, i <= j < i + Z.of_nat remaining ->
       exists byte,
         source !! Z.to_nat (j / 8) = Some byte /\
         out !! Z.to_nat j
           = Some (bit_cast (if Z.testbit byte (7 - j mod 8) then c1 else c0))) /\
    (forall j : nat,
       Z.of_nat j < i \/ i + Z.of_nat remaining <= Z.of_nat j ->
       out !! j = target !! j).
Proof.
  induction remaining as [| remaining IH]; intros i source target c0 c1 Hi Htgt Hsrc.
  - exists target. simpl.
    split; [reflexivity |]. split; [reflexivity |].
    split; [intros j Hj; lia | done].
  - simpl.
    destruct (reconstruct_step_spec i source target c0 c1 ltac:(lia) ltac:(lia))
      as (byte & Hbyte & ->).
    simpl.
    set (target' := <[Z.to_nat i := _]> target).
    assert (length target' = length target) as Hlen by apply length_insert.
    destruct (IH (i + 1) source target' c0 c1 ltac:(lia) ltac:(lia) ltac:(lia))
      as (out & -> & Hout & Hin & Hother).
    exists out. split; [reflexivity |]. split; [congruence |]. split.
    + intros j Hj. destruct (Z.eq_dec j i) as [-> | Hne].
      * exists byte. split; [exact Hbyte |].
        rewrite Hother by lia. subst target'.
        apply list_lookup_insert_eq. lia.
      * apply Hin. lia.
    + intros j Hj. rewrite Hother by lia. subst target'.
      apply list_lookup_insert_ne. lia.
Qed.
End reconstruct_facts.

(** C1: for [n >= 0], an index plane of at least [ceil(n / 8)] bytes and a
    target of at least [n] slots, [reconstruct] writes to slot [i], for every
    [i] in [[0, n)], the colour selected by bit [7 - i % 8] (counted from the
    least significant bit) of source byte [i / 8]: [color0] for 0, [color1]
    for 1; the other slots are left as they were.  The index-plane byte
    [0b10110000] with palette [(A, B)] decodes to [B,A,B,B,A,A,A,A]. *)
Theorem reconstruct_spec {color_type T : Type} (bit_cast : color_type -> T)
    (n : Z) (source : list Z) (target : list T) (color0 color1 : color_type) :
  0 <= n ->
  n <= Z.of_nat (length target) ->
  n <= 8 * Z.of_nat (length source) ->
  (exists out,
     reconstruct bit_cast n source target color0 color1 = Ok out /\
     length out = length target /\
     (forall i, 0 <= i < n ->
        exists byte,
          source !! Z.to_nat (i / 8) = Some byte /\
          out !! Z.to_nat i
            = Some (bit_cast (if Z.testbit byte (7 - i mod 8)
                              then color1 else color0))) /\
     (forall j : nat, n <= Z.of_nat j -> out !! j = target !! j)) /\
  (forall (A B : color_type) (slot : T),
     reconstruct bit_cast 8 [0xB0] (replicate 8 slot) A B
       = Ok (map bit_cast [B; A; B; B; A; A; A; A])).
Proof.
  intros Hn Htgt Hsrc. split.
  - unfold reconstruct.
    destruct (reconstruct_from_spec bit_cast (Z.to_nat n) 0 source target
                color0 color1 ltac:(lia) ltac:(lia) ltac:(lia))
      as (out & Hrun & Hlen & Hin & Hother).
    exists out. split; [exact Hrun |]. split; [exact Hlen |]. split.
    + intros i Hi. apply Hin. lia.
    + intros j Hj. apply Hother. lia.
  - intros A B slot. reflexivity.
Qed.

Lemma reconstruct_spec_witness :
  exists out,
    reconstruct (fun c : Z => c) 8 [0xB0] (replicate 8 0) 10 11 = Ok out /\
    out !! 0%nat = Some 11 /\ out !! 1%nat = Some 10.
Proof.
  destruct (proj1 (reconstruct_spec (fun c : Z => c) 8 [0xB0] (replicate 8 0)
                     10 11 ltac:(lia) ltac:(simpl; lia) ltac:(simpl; lia)))
    as (out & Hrun & _ & Hin & _).
  exists out. split; [exact Hrun |].
  destruct (Hin 0 ltac:(lia)) as (b0 & Hb0 & H0).
  destruct (Hin 1 ltac:(lia)) as (b1 & Hb1 & H1).
  injection Hb0 as <-. injection Hb1 as <-.
  split; [exact H0 | exact H1].
Defined.

(** ** Elements laid over bytes *)

Section elements.
Variable sz : nat.

Lemma elements_of_bytes_length (count : nat) (bytes : list Z) :
  length (elements_of_bytes sz count bytes) = count.
Proof.
  revert bytes. induction count as [| count IH]; intros bytes; simpl; [done |].
  by rewrite IH.
Qed.

Lemma elements_of_bytes_concat (count : nat) (bytes : list Z) :
  concat (elements_of_bytes sz count bytes) = take (sz * count) bytes.
Proof.
  revert bytes. induction count as [| count IH]; intros bytes; simpl.
  - by rewrite Nat.mul_0_r.
  - rewrite IH, take_take_drop. f_equal. lia.
Qed.

Lemma elements_of_bytes_sizes (count : nat) (bytes : list Z) :
  (sz * count <= length bytes)%nat ->
  Forall (fun e => length e = sz) (elements_of_bytes sz count bytes).
Proof.
  revert bytes. induction count as [| count IH]; intros bytes Hlen; simpl.
  - constructor.
  - constructor.
    + rewrite length_take. lia.
    + apply IH. rewrite length_drop. lia.
Qed.

(** Only the first [sz * count] bytes matter. *)
Lemma elements_of_bytes_app (count : nat) (bytes extra : list Z) :
  (sz * count <= length bytes)%nat ->
  elements_of_bytes sz count (bytes ++ extra) = elements_of_bytes sz count bytes.
Proof.
  revert bytes. induction count as [| count IH]; intros bytes Hlen; simpl; [done |].
  rewrite take_app_le, drop_app_le by lia.
  rewrite IH by (rewrite length_drop; lia). reflexivity.
Qed.

Lemma elements_of_bytes_take (count m : nat) (bytes : list Z) :
  (sz * count <= m)%nat -> (sz * count <= length bytes)%nat ->
  elements_of_bytes sz count (take m bytes) = elements_of_bytes sz count bytes.
Proof.
  intros Hm Hlen.
  rewrite <- (take_drop m bytes) at 2.
  rewrite elements_of_bytes_app; [done |]. rewrite length_take. lia.
Qed.

Lemma elements_of_bytes_split (a b : nat) (bytes : list Z) :
  elements_of_bytes sz (a + b) bytes
    = elements_of_bytes sz a bytes
        ++ elements_of_bytes sz b (drop (sz * a) bytes).
Proof.
  revert bytes. induction a as [| a IH]; intros bytes; simpl.
  - by rewrite Nat.mul_0_r.
  - rewrite IH, drop_drop.
    by replace (sz * S a)%nat with (sz + sz * a)%nat by lia.
Qed.

(** Laying the elements of [l] over their own bytes gives [l] back. *)
Lemma elements_of_bytes_of_concat (l : list (list Z)) :
  Forall (fun e => length e = sz) l ->
  elements_of_bytes sz (length l) (concat l) = l.
Proof.
  induction 1 as [| e l He Hl IH]; simpl; [done |].
  rewrite take_app_length', drop_app_length' by done.
  by rewrite IH.
Qed.

Lemma concat_sized_length (l : list (list Z)) :
  Forall (fun e => length e = sz) l -> length (concat l) = (sz * length l)%nat.
Proof.
  induction 1 as [| e l He Hl IH]; simpl; [lia |].
  rewrite length_app, IH, He. lia.
Qed.

Lemma concat_sized_drop (l : list (list Z)) (n : nat) :
  Forall (fun e => length e = sz) l ->
  drop (sz * n) (concat l) = concat (drop n l).
Proof.
  intros Hl. revert n. induction Hl as [| e l He Hl IH]; intros n; simpl.
  - by rewrite !drop_nil.
  - destruct n as [| n]; simpl.
    + by rewrite Nat.mul_0_r.
    + replace (sz * S n)%nat with (length e + sz * n)%nat by lia.
      by rewrite <- drop_drop, drop_app_length, IH.
Qed.

Lemma replicate_sized (count : nat) (x : Z) :
  Forall (fun e => length e = sz) (replicate count (replicate sz x)).
Proof.
  induction count as [| count IH]; simpl; constructor; [| done].
  apply length_replicate.
Qed.
End elements.

Lemma bytes_of_u64_length (w : Z) : length (bytes_of_u64 w) = 8%nat.
Proof. reflexivity. Qed.

Lemma source_bytes_length (source : list Z) :
  length (source_bytes source) = (8 * length source)%nat.
Proof.
  unfold source_bytes. induction source as [| w source IH]; simpl; [done |].
  rewrite IH. lia.
Qed.

(** The bytes from byte 24 on are the bytes of the words from word 3 on. *)
Lemma source_bytes_drop_header (source : list Z) :
  drop 24 (source_bytes source) = source_bytes (drop 3 source).
Proof.
  destruct source as [| a [| b [| c source]]]; reflexivity.
Qed.

(** What [get_header] returns lies within the ranges of the members. *)
Lemma get_header_wf (source : list Z) (head : header) :
  value (get_header source) = Ok head -> header_wf head.
Proof.
  destruct source as [| w0 rest]; [discriminate |].
  unfold get_header, mbind, traced_bind, mret, traced_ret, read_word. simpl.
  pose proof (u8_at_range w0 0). pose proof (u8_at_range w0 1).
  pose proof (u32_at_range w0 1).
  destruct (0 <? u8_at w0 0) eqn:Hpos; simpl.
  - destruct rest as [| w1 rest]; simpl; [discriminate |].
    pose proof (u16_at_range w1 0). pose proof (u16_at_range w1 1).
    destruct (u8_at w0 0 =? 2) eqn:Htwo; simpl.
    + destruct rest as [| w2 rest]; simpl; [discriminate |].
      pose proof (u32_at_range w2 0). pose proof (u32_at_range w2 1).
      intros [= <-]. unfold header_wf. simpl. lia.
    + intros [= <-]. unfold header_wf. simpl. lia.
  - destruct (u8_at w0 0 =? 2) eqn:Htwo; simpl.
    + apply Z.ltb_ge in Hpos. apply Z.eqb_eq in Htwo. lia.
    + intros [= <-]. unfold header_wf. simpl. lia.
Qed.

(** ** Verbatim decoding *)

Lemma memcpy_in_range (dst src : list Z) (m : nat) :
  (m <= length src)%nat -> (m <= length dst)%nat ->
  memcpy dst src (Z.of_nat m) = Ok (take m src ++ drop m dst).
Proof.
  intros Hsrc Hdst. unfold memcpy.
  assert ((Z.of_nat m <=? Z.of_nat (length src)) = true) as -> by (apply Z.leb_le; lia).
  assert ((Z.of_nat m <=? Z.of_nat (length dst)) = true) as -> by (apply Z.leb_le; lia).
  by rewrite Nat2Z.id.
Qed.

(** The byte count handed to [memcpy] is the element count times the element
    size, with no wrap-around in any of the conversions. *)
Lemma byte_count_exact (sizeof_T : positive) (bits : Z) :
  0 <= bits < 2 ^ 32 ->
  let n := bits / 8 / Z.pos sizeof_T in
  0 <= n /\
  to_size_t (to_int (to_size_t (to_size_t n * Z.pos sizeof_T)))
    = Z.of_nat (Pos.to_nat sizeof_T * Z.to_nat n).
Proof.
  intros Hbits. cbv zeta.
  assert (0 <= bits / 8 < 2 ^ 29) as Hbytes.
  { split; [apply Z.div_pos; lia | apply Z.div_lt_upper_bound; lia]. }
  pose proof (Z.div_mod (bits / 8) (Z.pos sizeof_T) ltac:(lia)) as Hdm.
  pose proof (Z.mod_pos_bound (bits / 8) (Z.pos sizeof_T) ltac:(lia)) as Hm.
  assert (0 <= bits / 8 / Z.pos sizeof_T) as Hn by (apply Z.div_pos; lia).
  set (n := bits / 8 / Z.pos sizeof_T) in *.
  assert (0 <= n * Z.pos sizeof_T < 2 ^ 29) as Hprod by nia.
  assert (n <= n * Z.pos sizeof_T) as Hle by nia.
  split; [exact Hn |].
  rewrite (to_size_t_id n) by lia.
  rewrite (to_size_t_id (n * Z.pos sizeof_T)) by lia.
  rewrite to_int_id by (unfold int_min, int_max; lia).
  rewrite to_size_t_id by lia.
  lia.
Qed.

(** An element type aligned no more strictly than a word lies right after
    the three words of filler, and the wrapper is padded to whole words. *)
Lemma wrapper_layout_word_aligned (sz : Z) (align_T : nat) (count : Z) :
  (align_T <= 3)%nat ->
  wrapper_data_offset align_T = 24 /\
  sizeof_wrapper sz align_T count = 24 + 8 * ((Z.max 1 (sz * count) + 7) / 8).
Proof.
  intros Halign.
  assert (wrapper_data_offset align_T = 24 /\ Z.max 8 (alignof align_T) = 8)
    as [Hoffset Hmax].
  { destruct align_T as [| [| [| [| ?]]]]; [| | | | lia]; by vm_compute. }
  split; [exact Hoffset |].
  unfold sizeof_wrapper, round_up. rewrite Hoffset, Hmax.
  pose proof (Z.div_mod (24 + Z.max 1 (sz * count) + 8 - 1) 8 ltac:(lia)).
  pose proof (Z.mod_pos_bound (24 + Z.max 1 (sz * count) + 8 - 1) 8 ltac:(lia)).
  pose proof (Z.div_mod (Z.max 1 (sz * count) + 7) 8 ltac:(lia)).
  pose proof (Z.mod_pos_bound (Z.max 1 (sz * count) + 7) 8 ltac:(lia)).
  lia.
Qed.

Lemma memcpy_vector_replicate (count : nat) (element : list Z)
    (src : list Z) (n : Z) :
  (0 < count)%nat ->
  memcpy_vector (replicate count element) src n
    = memcpy (concat (replicate count element)) src n.
Proof. intros Hpos. destruct count; [lia | reflexivity]. Qed.

Section verbatim.
Variable sizeof_T : positive.
Variable source : list Z.
Variable head : header.
Hypothesis Htype : type head <> 2.
Hypothesis Hwf : header_wf head.

Let sz : nat := Pos.to_nat sizeof_T.
Let count : nat := Z.to_nat (bit_count head / 8 / Z.pos sizeof_T).
Let payload : list Z := source_bytes (drop 3 source).

Lemma decode_to_vector_verbatim :
  value (get_header source) = Ok head ->
  (3 <= length source)%nat -> (sz * count <= length payload)%nat ->
  (0 < count)%nat ->
  exists out,
    decode_to_vector sizeof_T source = Ok out /\
    length out = count /\
    Forall (fun e => length e = sz) out /\
    concat out = take (sz * count) payload.
Proof.
  intros Hhead Hwords Hpayload Hpos.
  destruct Hwf as (_ & _ & Hbits & _).
  destruct (byte_count_exact sizeof_T (bit_count head) Hbits) as [Hn Hbytes].
  unfold decode_to_vector. rewrite Hhead. simpl.
  rewrite get_element_count_T_bytes by done. simpl.
  rewrite Hbytes. unfold new_vector.
  assert ((bit_count head / 8 / Z.pos sizeof_T <? 0) = false) as ->
    by (apply Z.ltb_ge; lia).
  simpl. unfold data_start_ptr.
  assert ((3 <=? length source)%nat = true) as -> by (apply Nat.leb_le; lia).
  simpl. apply Z.eqb_neq in Htype. rewrite Htype.
  fold sz count payload.
  pose proof (concat_sized_length sz _ (replicate_sized sz count 0)) as Hdst.
  rewrite length_replicate in Hdst.
  rewrite memcpy_vector_replicate by done.
  rewrite memcpy_in_range by lia. simpl.
  rewrite drop_ge, app_nil_r, length_replicate by lia.
  eexists. split; [reflexivity |].
  rewrite elements_of_bytes_take by lia.
  split; [apply elements_of_bytes_length |].
  split; [by apply elements_of_bytes_sizes |].
  apply elements_of_bytes_concat.
Qed.

Lemma decode_into_pointer_verbatim (dst : list (list Z)) :
  value (get_header source) = Ok head ->
  (3 <= length source)%nat -> (sz * count <= length payload)%nat ->
  Forall (fun e => length e = sz) dst -> (count <= length dst)%nat ->
  exists front,
    decode_into_pointer sizeof_T source dst = Ok (front ++ drop count dst) /\
    length front = count /\
    Forall (fun e => length e = sz) front /\
    concat front = take (sz * count) payload.
Proof.
  intros Hhead Hwords Hpayload Hsized Hroom.
  destruct Hwf as (_ & _ & Hbits & _).
  destruct (byte_count_exact sizeof_T (bit_count head) Hbits) as [Hn Hbytes].
  unfold decode_into_pointer. rewrite Hhead. simpl.
  rewrite get_element_count_T_bytes by done. simpl.
  rewrite Hbytes. unfold data_start_ptr.
  assert ((3 <=? length source)%nat = true) as -> by (apply Nat.leb_le; lia).
  simpl. apply Z.eqb_neq in Htype. rewrite Htype.
  fold sz count payload.
  pose proof (concat_sized_length sz dst Hsized) as Hdst.
  rewrite memcpy_in_range by nia. simpl.
  exists (elements_of_bytes sz count payload).
  split.
  - f_equal.
    replace (length dst) with (count + length (drop count dst))%nat
      by (rewrite length_drop; lia).
    rewrite elements_of_bytes_split. f_equal.
    + rewrite elements_of_bytes_app by (rewrite length_take; lia).
      apply elements_of_bytes_take; lia.
    + rewrite drop_app_length' by (rewrite length_take; lia).
      rewrite concat_sized_drop by done.
      apply elements_of_bytes_of_concat. by apply Forall_drop.
  - split; [apply elements_of_bytes_length |].
    split; [by apply elements_of_bytes_sizes |].
    apply elements_of_bytes_concat.
Qed.

End verbatim.




(** ** Element size against [bpp] *)

(** The array decode rejects an element type whose size differs from the
    [bpp] of a DualColorImage header. *)
Lemma decode_to_array_rejects_mismatch (sizeof_T : positive) (align_T : nat)
    (head : header) (element_count : Z) (source : list Z) :
  type head = 2 -> Z.pos sizeof_T <> bpp head ->
  exists msg,
    decode_to_array sizeof_T align_T head element_count source = StaticAssert msg.
Proof.
  intros Hty Hne. unfold decode_to_array.
  destruct (element_count >? 0); cbn [negb]; [| eauto].
  rewrite Hty. change (2 =? 2) with true. cbv iota.
  apply Z.eqb_neq in Hne. rewrite Hne. cbn [negb]. eauto.
Qed.

(** C2, on the code: decoding the DualColorImage [dual_8x1], whose [bpp] is
    1, into 4-byte elements.  The array decode rejects it; the vector decode
    and the pointer decode do not compare the element size with [bpp]: they
    take 4 bytes of each colour and return eight 4-byte elements. *)
Theorem decode_size_mismatch_unchecked :
  let head := Header 2 1 8 8 1 0x44332211 0xDDCCBBAA in
  let A := [0x11; 0x22; 0x33; 0x44] in
  let B := [0xAA; 0xBB; 0xCC; 0xDD] in
  value (get_header dual_8x1) = Ok head /\
  bpp head = 1 /\
  decode_to_array_default 4 2 head dual_8x1
    = StaticAssert "User type has different size than bpp" /\
  decode_to_vector 4 dual_8x1 = Ok [B; A; B; B; A; A; A; A] /\
  decode_into_pointer 4 dual_8x1 (replicate 8 [0; 0; 0; 0])
    = Ok [B; A; B; B; A; A; A; A].
Proof. vm_compute. done. Qed.

(** * Further properties of the decoder *)

(** ** What a parsed header holds *)

Ltac run_traced :=
  unfold mbind, traced_bind, mret, traced_ret, read_word, lift; simpl.

Lemma get_header_inv (source : list Z) (head : header) :
  value (get_header source) = Ok head ->
  exists w0,
    source !! 0%nat = Some w0 /\
    type head = u8_at w0 0 /\ bpp head = u8_at w0 1 /\
    bit_count head = u32_at w0 1 /\
    (type head = 0 -> width head = 0 /\ height head = 0) /\
    (type head <> 0 ->
       exists w1, source !! 1%nat = Some w1 /\
                  width head = u16_at w1 0 /\ height head = u16_at w1 1) /\
    (type head <> 2 -> color0 head = 0 /\ color1 head = 0) /\
    (type head = 2 ->
       exists w2, source !! 2%nat = Some w2 /\
                  color0 head = u32_at w2 0 /\ color1 head = u32_at w2 1).
Proof.
  destruct source as [| w0 rest]; [discriminate |].
  unfold get_header. run_traced.
  pose proof (u8_at_range w0 0) as Hkind.
  intros Hhead. exists w0. split; [reflexivity |].
  destruct (0 <? u8_at w0 0) eqn:Hpos; simpl in Hhead.
  - apply Z.ltb_lt in Hpos.
    destruct rest as [| w1 rest]; simpl in Hhead; [discriminate |].
    destruct (u8_at w0 0 =? 2) eqn:Htwo; simpl in Hhead.
    + apply Z.eqb_eq in Htwo.
      destruct rest as [| w2 rest]; simpl in Hhead; [discriminate |].
      injection Hhead as <-. simpl.
      repeat split; try lia; eauto.
    + apply Z.eqb_neq in Htwo. injection Hhead as <-. simpl.
      repeat split; try lia; eauto.
  - apply Z.ltb_ge in Hpos.
    assert ((u8_at w0 0 =? 2) = false) as Htwo by (apply Z.eqb_neq; lia).
    rewrite Htwo in Hhead. simpl in Hhead. injection Hhead as <-. simpl.
    repeat split; try lia.
Qed.

(** The members of a parsed header are the fields of the words that were
    read; the members whose word the kind does not call for keep their
    default, 0. *)
Theorem get_header_fields (source : list Z) (head : header) :
  value (get_header source) = Ok head ->
  exists w0,
    source !! 0%nat = Some w0 /\
    type head = u8_at w0 0 /\ bpp head = u8_at w0 1 /\
    bit_count head = u32_at w0 1 /\
    (type head = 0 -> width head = 0 /\ height head = 0) /\
    (type head <> 0 ->
       exists w1, source !! 1%nat = Some w1 /\
                  width head = u16_at w1 0 /\ height head = u16_at w1 1) /\
    (type head <> 2 -> color0 head = 0 /\ color1 head = 0) /\
    (type head = 2 ->
       exists w2, source !! 2%nat = Some w2 /\
                  color0 head = u32_at w2 0 /\ color1 head = u32_at w2 1).
Proof.
  destruct source as [| w0 rest]; [discriminate |].
  unfold get_header. run_traced.
  pose proof (u8_at_range w0 0) as Hkind.
  intros Hhead. exists w0. split; [reflexivity |].
  destruct (0 <? u8_at w0 0) eqn:Hpos; simpl in Hhead.
  - apply Z.ltb_lt in Hpos.
    destruct rest as [| w1 rest]; simpl in Hhead; [discriminate |].
    destruct (u8_at w0 0 =? 2) eqn:Htwo; simpl in Hhead.
    + apply Z.eqb_eq in Htwo.
      destruct rest as [| w2 rest]; simpl in Hhead; [discriminate |].
      injection Hhead as <-. simpl.
      repeat split; try lia; eauto.
    + apply Z.eqb_neq in Htwo. injection Hhead as <-. simpl.
      repeat split; try lia; eauto.
  - apply Z.ltb_ge in Hpos.
    assert ((u8_at w0 0 =? 2) = false) as Htwo by (apply Z.eqb_neq; lia).
    rewrite Htwo in Hhead. simpl in Hhead. injection Hhead as <-. simpl.
    repeat split; try lia.
Qed.

Lemma get_header_fields_witness :
  exists w0,
    image_2x1 !! 0%nat = Some w0 /\
    type (Header 1 3 48 2 1 0 0) = u8_at w0 0.
Proof.
  destruct (get_header_fields image_2x1 (Header 1 3 48 2 1 0 0) eq_refl)
    as (w0 & Hw0 & Hty & _).
  exists w0. split; [exact Hw0 | exact Hty].
Defined.

(** A source whose header parses as a DualColorImage has its three header
    words. *)
Lemma get_header_dual_length (source : list Z) (head : header) :
  value (get_header source) = Ok head -> type head = 2 ->
  (3 <= length source)%nat.
Proof.
  intros Hhead Hty.
  destruct (get_header_inv source head Hhead) as (_ & _ & _ & _ & _ & _ & _ & _ & Hw2).
  destruct (Hw2 Hty) as (w2 & Hlookup & _).
  apply lookup_lt_Some in Hlookup. lia.
Qed.

(** ** The layout of the header words *)

Lemma land_shiftr_field (x k n : Z) :
  0 <= k -> 0 <= n ->
  Z.land (Z.shiftr x k) (Z.ones n) = (x / 2 ^ k) mod 2 ^ n.
Proof. intros Hk Hn. by rewrite Z.land_ones, Z.shiftr_div_pow2 by lia. Qed.

Lemma word0_fields (t b bc : Z) :
  0 <= t < 2 ^ 8 -> 0 <= b < 2 ^ 8 -> 0 <= bc < 2 ^ 32 ->
  u8_at (word0 t b bc) 0 = t /\ u8_at (word0 t b bc) 1 = b /\
  u32_at (word0 t b bc) 1 = bc.
Proof.
  intros Ht Hb Hbc. unfold u8_at, u32_at, word0.
  change 255 with (Z.ones 8). change 4294967295 with (Z.ones 32).
  rewrite !land_shiftr_field by lia.
  change (2 ^ (8 * 0)) with 1. change (2 ^ (8 * 1)) with 256.
  change (2 ^ (32 * 1)) with 4294967296.
  change (2 ^ 8) with 256 in *. change (2 ^ 32) with 4294967296 in *.
  repeat split; Z.div_mod_to_equations; lia.
Qed.

Lemma word1_fields (w h : Z) :
  0 <= w < 2 ^ 16 -> 0 <= h < 2 ^ 16 ->
  u16_at (word1 w h) 0 = w /\ u16_at (word1 w h) 1 = h.
Proof.
  intros Hw Hh. unfold u16_at, word1.
  change 65535 with (Z.ones 16).
  rewrite !land_shiftr_field by lia.
  change (2 ^ (16 * 0)) with 1. change (2 ^ (16 * 1)) with 65536.
  change (2 ^ 16) with 65536 in *.
  repeat split; Z.div_mod_to_equations; lia.
Qed.

Lemma word2_fields (c0 c1 : Z) :
  0 <= c0 < 2 ^ 32 -> 0 <= c1 < 2 ^ 32 ->
  u32_at (word2 c0 c1) 0 = c0 /\ u32_at (word2 c0 c1) 1 = c1.
Proof.
  intros Hc0 Hc1. unfold u32_at, word2.
  change 4294967295 with (Z.ones 32).
  rewrite !land_shiftr_field by lia.
  change (2 ^ (32 * 0)) with 1. change (2 ^ (32 * 1)) with 4294967296.
  change (2 ^ 32) with 4294967296 in *.
  repeat split; Z.div_mod_to_equations; lia.
Qed.

(** Parsing the words of a [struct header], followed by any payload, gives
    the header back as far as its kind calls for: [type], [bpp] and
    [bit_count] always, [width] and [height] unless the kind is 0, the two
    colours only for kind 2; a DualColorImage header comes back whole. *)
Theorem get_header_header_words (head : header) (payload : list Z) :
  header_wf head ->
  value (get_header (header_words head ++ payload))
    = Ok (Header (type head) (bpp head) (bit_count head)
                 (if 0 <? type head then width head else 0)
                 (if 0 <? type head then height head else 0)
                 (if type head =? 2 then color0 head else 0)
                 (if type head =? 2 then color1 head else 0)) /\
  (type head = 2 ->
   get_header (header_words head ++ payload)
     = Traced (Ok head) [0%nat; 1%nat; 2%nat]).
Proof.
  intros (Ht & Hb & Hbc & Hw & Hh & Hc0 & Hc1).
  destruct (word0_fields _ _ _ Ht Hb Hbc) as (Et & Eb & Ebc).
  destruct (word1_fields _ _ Hw Hh) as (Ew & Eh).
  destruct (word2_fields _ _ Hc0 Hc1) as (Ec0 & Ec1).
  unfold header_words, get_header. run_traced.
  rewrite Et, Eb, Ebc. split.
  - destruct (0 <? type head) eqn:Hpos; simpl.
    + rewrite Ew, Eh. destruct (type head =? 2); simpl; by rewrite ?Ec0, ?Ec1.
    + destruct (type head =? 2) eqn:Htwo; simpl; [| done].
      apply Z.ltb_ge in Hpos. apply Z.eqb_eq in Htwo. lia.
  - intros Hty. rewrite Hty. simpl. rewrite Ew, Eh, Ec0, Ec1.
    destruct head; simpl in *. by subst.
Qed.

Lemma get_header_header_words_witness :
  get_header (header_words (Header 2 1 8 8 1 0x44332211 0xDDCCBBAA) ++ [0xB0])
    = Traced (Ok (Header 2 1 8 8 1 0x44332211 0xDDCCBBAA)) [0%nat; 1%nat; 2%nat].
Proof.
  refine (proj2 (get_header_header_words
                   (Header 2 1 8 8 1 0x44332211 0xDDCCBBAA) [0xB0] _) _).
  - vm_compute. intuition congruence.
  - reflexivity.
Defined.

(** ** Width, height and the kind test *)

Lemma get_width_height_image (source : list Z) (head : header) :
  value (get_header source) = Ok head ->
  type head = 1 \/ type head = 2 ->
  value (is_image source) = Ok true /\
  get_width source = Traced (Ok (width head)) [0%nat; 1%nat] /\
  get_height source = Traced (Ok (height head)) [0%nat; 1%nat].
Proof.
  intros Hhead Himage.
  destruct (get_header_inv source head Hhead)
    as (w0 & Hw0 & Hty & _ & _ & _ & Hdims & _).
  destruct source as [| w0' rest]; [discriminate |].
  injection Hw0 as ->.
  destruct (Hdims ltac:(lia)) as (w1 & Hw1 & Hwidth & Hheight).
  destruct rest as [| w1' rest]; [discriminate |].
  injection Hw1 as ->.
  assert ((u8_at w0 0 =? 1) || (u8_at w0 0 =? 2) = true) as Hor.
  { rewrite <- Hty. destruct Himage as [-> | ->]; reflexivity. }
  unfold get_width, get_height, is_image. run_traced.
  rewrite Hor. simpl. by rewrite Hwidth, Hheight.
Qed.

(** On a source whose header parses, [is_image], [get_width] and
    [get_height] agree with the header for the kinds 1 and 2.  For any other
    kind they answer false and -1 after reading word 0 only, also for an
    unrecognised kind, whose header does carry the dimensions of word 1. *)
Theorem get_width_height_spec (source : list Z) (head : header) :
  value (get_header source) = Ok head ->
  (type head = 1 \/ type head = 2 ->
     value (is_image source) = Ok true /\
     get_width source = Traced (Ok (width head)) [0%nat; 1%nat] /\
     get_height source = Traced (Ok (height head)) [0%nat; 1%nat]) /\
  (type head <> 1 -> type head <> 2 ->
     is_image source = Traced (Ok false) [0%nat] /\
     get_width source = Traced (Ok (-1)) [0%nat] /\
     get_height source = Traced (Ok (-1)) [0%nat]).
Proof.
  intros Hhead.
  split.
  - intros Himage. by apply get_width_height_image.
  - intros H1 H2.
    destruct (get_header_inv source head Hhead)
      as (w0 & Hw0 & Hty & _).
    destruct source as [| w0' rest]; [discriminate |].
    injection Hw0 as ->.
    assert ((u8_at w0 0 =? 1) || (u8_at w0 0 =? 2) = false) as Hor.
    { rewrite <- Hty. apply Z.eqb_neq in H1, H2. by rewrite H1, H2. }
    unfold get_width, get_height, is_image. run_traced.
    rewrite Hor. done.
Qed.

Lemma get_width_height_spec_witness :
  get_width image_2x1 = Traced (Ok 2) [0%nat; 1%nat] /\
  get_width [word0 0 0 64] = Traced (Ok (-1)) [0%nat].
Proof.
  split.
  - refine (proj1 (proj2 (proj1 (get_width_height_spec image_2x1
                                   (Header 1 3 48 2 1 0 0) eq_refl) _))).
    left. reflexivity.
  - refine (proj1 (proj2 (proj2 (get_width_height_spec [word0 0 0 64]
                                   (Header 0 0 64 0 0 0 0) eq_refl) _ _)));
      simpl; lia.
Defined.

(** On an image source whose header parses and whose pixel count fits an
    [int], the element count read from the words is the product of what
    [get_width] and [get_height] return. *)
Theorem get_element_count_source_dimensions (source : list Z) (head : header) :
  value (get_header source) = Ok head ->
  type head = 1 \/ type head = 2 ->
  width head * height head <= int_max ->
  exists w h,
    value (get_width source) = Ok w /\
    value (get_height source) = Ok h /\
    value (get_element_count_source source) = Ok (w * h) /\
    reads (get_element_count_source source) = reads (get_header source).
Proof.
  intros Hhead Himage Hfit.
  destruct (get_width_height_image source head Hhead Himage) as (_ & Hw & Hh).
  exists (width head), (height head).
  rewrite Hw, Hh. simpl. split; [done |]. split; [done |].
  unfold get_element_count_source, mbind, traced_bind, lift.
  rewrite Hhead. simpl. rewrite app_nil_r. split; [| done].
  apply get_element_count_fits; [by eapply get_header_wf | lia | done].
Qed.

Lemma get_element_count_source_dimensions_witness :
  exists w h,
    value (get_width image_2x1) = Ok w /\
    value (get_height image_2x1) = Ok h /\
    value (get_element_count_source image_2x1) = Ok (w * h).
Proof.
  destruct (get_element_count_source_dimensions image_2x1
              (Header 1 3 48 2 1 0 0) eq_refl
              ltac:(left; reflexivity) ltac:(vm_compute; congruence))
    as (w & h & Hw & Hh & Hcount & _).
  exists w, h. split; [exact Hw |]. split; [exact Hh | exact Hcount].
Defined.

(** ** More on the bit-plane reconstruction *)

Section reconstruct_more.
Context {color_type T : Type}.
Variable bit_cast : color_type -> T.

Lemma reconstruct_in_range (n : Z) (source : list Z) (target : list T)
    (c0 c1 : color_type) :
  0 <= n -> n <= Z.of_nat (length target) -> n <= 8 * Z.of_nat (length source) ->
  exists out,
    reconstruct bit_cast n source target c0 c1 = Ok out /\
    length out = length target /\
    (forall i, 0 <= i < n ->
       exists byte, source !! Z.to_nat (i / 8) = Some byte /\
                    out !! Z.to_nat i
                      = Some (bit_cast (if Z.testbit byte (7 - i mod 8)
                                        then c1 else c0))) /\
    (forall j : nat, n <= Z.of_nat j -> out !! j = target !! j).
Proof.
  intros Hn Htgt Hsrc. unfold reconstruct.
  destruct (reconstruct_from_spec bit_cast (Z.to_nat n) 0 source target
              c0 c1 ltac:(lia) ltac:(lia) ltac:(lia))
    as (out & Hrun & Hlen & Hin & Hother).
  exists out. split; [exact Hrun |]. split; [exact Hlen |]. split.
  - intros i Hi. apply Hin. lia.
  - intros j Hj. apply Hother. lia.
Qed.

Lemma read_at_Ok {A : Type} (l : list A) (i : Z) (x : A) :
  read_at l i = Ok x -> 0 <= i < Z.of_nat (length l).
Proof.
  unfold read_at. destruct (i <? 0) eqn:Hneg; [discriminate |].
  apply Z.ltb_ge in Hneg.
  destruct (l !! Z.to_nat i) eqn:Hlookup; [| discriminate].
  intros _. apply lookup_lt_Some in Hlookup. lia.
Qed.

Lemma write_at_Ok {A : Type} (l l' : list A) (i : Z) (x : A) :
  write_at l i x = Ok l' ->
  0 <= i < Z.of_nat (length l) /\ l' = <[Z.to_nat i := x]> l.
Proof.
  unfold write_at.
  destruct (0 <=? i) eqn:Hlo; [| discriminate].
  destruct (i <? Z.of_nat (length l)) eqn:Hhi; [| discriminate].
  apply Z.leb_le in Hlo. apply Z.ltb_lt in Hhi. simpl.
  intros [= <-]. split; [lia | reflexivity].
Qed.

Lemma reconstruct_step_Ok (i : Z) (source : list Z) (target target' : list T)
    (c0 c1 : color_type) :
  0 <= i ->
  reconstruct_step bit_cast i source target c0 c1 = Ok target' ->
  i < Z.of_nat (length target) /\ i < 8 * Z.of_nat (length source) /\
  length target' = length target.
Proof.
  intros Hi. unfold reconstruct_step.
  destruct (read_at source (Z.quot i 8)) as [byte | | |] eqn:Hread;
    simpl; try discriminate.
  apply read_at_Ok in Hread. rewrite Z.quot_div_nonneg in Hread by lia.
  intros Hwrite. apply write_at_Ok in Hwrite as [Hrange ->].
  split; [lia |]. split; [| apply length_insert].
  pose proof (Z.div_mod i 8 ltac:(lia)). pose proof (Z.mod_pos_bound i 8 ltac:(lia)).
  lia.
Qed.

Lemma reconstruct_from_Ok (remaining : nat) :
  forall (i : Z) (source : list Z) (target out : list T) (c0 c1 : color_type),
  0 <= i ->
  reconstruct_from bit_cast remaining i source target c0 c1 = Ok out ->
  remaining = 0%nat \/
  (i + Z.of_nat remaining <= Z.of_nat (length target) /\
   i + Z.of_nat remaining <= 8 * Z.of_nat (length source)).
Proof.
  induction remaining as [| remaining IH]; intros i source target out c0 c1 Hi Hrun;
    [by left | right].
  simpl in Hrun.
  destruct (reconstruct_step bit_cast i source target c0 c1)
    as [target' | | |] eqn:Hstep; simpl in Hrun; try discriminate.
  apply reconstruct_step_Ok in Hstep as (Htgt & Hsrc & Hlen); [| lia].
  destruct (IH (i + 1) source target' out c0 c1 ltac:(lia) Hrun) as [-> | [H1 H2]]; lia.
Qed.

Lemma reconstruct_from_never_throws (remaining : nat) :
  forall (i : Z) (source : list Z) (target : list T) (c0 c1 : color_type),
  (exists out, reconstruct_from bit_cast remaining i source target c0 c1 = Ok out) \/
  reconstruct_from bit_cast remaining i source target c0 c1 = Undefined.
Proof.
  induction remaining as [| remaining IH]; intros i source target c0 c1; simpl;
    [eauto |].
  unfold reconstruct_step, read_at, write_at.
  destruct (Z.quot i 8 <? 0); simpl; [by right |].
  destruct (source !! Z.to_nat (Z.quot i 8)); simpl; [| by right].
  destruct ((0 <=? i) && (i <? Z.of_nat (length target))); simpl; [| by right].
  apply IH.
Qed.

Lemma reconstruct_nonpositive (n : Z) (source : list Z) (target : list T)
    (c0 c1 : color_type) :
  n <= 0 -> reconstruct bit_cast n source target c0 c1 = Ok target.
Proof.
  intros Hn. unfold reconstruct.
  by replace (Z.to_nat n) with 0%nat by lia.
Qed.

(** [reconstruct] is defined exactly when the index plane has a byte for
    every index and the target a slot for every index; otherwise an access
    leaves its object.  With a count of zero or less it touches nothing. *)
Theorem reconstruct_defined_iff (n : Z) (source : list Z) (target : list T)
    (c0 c1 : color_type) :
  (n <= 0 -> reconstruct bit_cast n source target c0 c1 = Ok target) /\
  (0 < n ->
   ((exists out, reconstruct bit_cast n source target c0 c1 = Ok out) <->
    n <= Z.of_nat (length target) /\ n <= 8 * Z.of_nat (length source)) /\
   (~ (n <= Z.of_nat (length target) /\ n <= 8 * Z.of_nat (length source)) ->
    reconstruct bit_cast n source target c0 c1 = Undefined)).
Proof.
  split; [apply reconstruct_nonpositive |].
  - intros Hn.
    assert ((exists out, reconstruct bit_cast n source target c0 c1 = Ok out) <->
            n <= Z.of_nat (length target) /\ n <= 8 * Z.of_nat (length source))
      as Hiff.
    { split.
      - intros [out Hrun]. unfold reconstruct in Hrun.
        apply reconstruct_from_Ok in Hrun; lia.
      - intros [Htgt Hsrc].
        destruct (reconstruct_in_range n source target c0 c1) as (out & Hrun & _);
          [lia | done | done | eauto]. }
    split; [exact Hiff |].
    intros Hout.
    destruct (reconstruct_from_never_throws (Z.to_nat n) 0 source target c0 c1)
      as [Hok | Hundef]; [| exact Hundef].
    by apply Hiff in Hok.
Qed.

(** Every slot [reconstruct] writes holds one of the two colours. *)
Theorem reconstruct_two_colors (n : Z) (source : list Z) (target out : list T)
    (c0 c1 : color_type) :
  reconstruct bit_cast n source target c0 c1 = Ok out ->
  forall i, 0 <= i < n ->
    out !! Z.to_nat i = Some (bit_cast c0) \/
    out !! Z.to_nat i = Some (bit_cast c1).
Proof.
  intros Hrun i Hi.
  assert (n <= Z.of_nat (length target) /\ n <= 8 * Z.of_nat (length source))
    as [Htgt Hsrc].
  { unfold reconstruct in Hrun. apply reconstruct_from_Ok in Hrun; lia. }
  destruct (reconstruct_in_range n source target c0 c1 ltac:(lia) Htgt Hsrc)
    as (out' & Hrun' & _ & Hin & _).
  assert (out' = out) as -> by congruence.
  destruct (Hin i Hi) as (byte & _ & ->).
  destruct (Z.testbit byte (7 - i mod 8)); [by right | by left].
Qed.
End reconstruct_more.

Lemma reconstruct_defined_iff_witness :
  reconstruct (fun c : Z => c) 9 [0xB0] (replicate 9 0) 10 11 = Undefined.
Proof.
  refine (proj2 (proj2 (reconstruct_defined_iff (fun c : Z => c) 9 [0xB0]
                          (replicate 9 0) 10 11) _) _); simpl; lia.
Defined.

Lemma reconstruct_two_colors_witness :
  [11; 10; 11] !! Z.to_nat 2 = Some 10 \/ [11; 10; 11] !! Z.to_nat 2 = Some 11.
Proof.
  apply (reconstruct_two_colors (fun c : Z => c) 3 [0xB0] [0; 0; 0]
           [11; 10; 11] 10 11 eq_refl 2).
  lia.
Defined.

Section reconstruct_bits.
Context {color_type T : Type}.
Variable bit_cast : color_type -> T.

(** The output depends on the index plane through its first [n] bits only:
    two planes that agree on them, whatever their later bits and bytes, are
    reconstructed alike. *)
Theorem reconstruct_depends_on_bits (n : Z) (source1 source2 : list Z)
    (target : list T) (c0 c1 : color_type) :
  0 <= n -> n <= Z.of_nat (length target) ->
  n <= 8 * Z.of_nat (length source1) -> n <= 8 * Z.of_nat (length source2) ->
  (forall i, 0 <= i < n ->
     (fun byte => Z.testbit byte (7 - i mod 8)) <$> source1 !! Z.to_nat (i / 8)
     = (fun byte => Z.testbit byte (7 - i mod 8)) <$> source2 !! Z.to_nat (i / 8)) ->
  reconstruct bit_cast n source1 target c0 c1
    = reconstruct bit_cast n source2 target c0 c1.
Proof.
  intros Hn Htgt Hsrc1 Hsrc2 Hbits.
  destruct (reconstruct_in_range bit_cast n source1 target c0 c1 Hn Htgt Hsrc1)
    as (out1 & -> & Hlen1 & Hin1 & Hother1).
  destruct (reconstruct_in_range bit_cast n source2 target c0 c1 Hn Htgt Hsrc2)
    as (out2 & -> & Hlen2 & Hin2 & Hother2).
  f_equal. apply list_eq. intros j.
  destruct (Z_lt_le_dec (Z.of_nat j) n) as [Hlt | Hge].
  - destruct (Hin1 (Z.of_nat j) ltac:(lia)) as (b1 & Hb1 & Ho1).
    destruct (Hin2 (Z.of_nat j) ltac:(lia)) as (b2 & Hb2 & Ho2).
    specialize (Hbits (Z.of_nat j) ltac:(lia)).
    rewrite Hb1, Hb2 in Hbits. simpl in Hbits. injection Hbits as Hbit.
    rewrite Nat2Z.id in Ho1, Ho2. by rewrite Ho1, Ho2, Hbit.
  - by rewrite Hother1, Hother2.
Qed.

(** With two distinct colours nothing of the first [n] bits is lost: planes
    that are reconstructed alike agree on every one of them. *)
Theorem reconstruct_injective (n : Z) (source1 source2 : list Z)
    (target1 target2 out : list T) (c0 c1 : color_type) :
  bit_cast c0 <> bit_cast c1 ->
  reconstruct bit_cast n source1 target1 c0 c1 = Ok out ->
  reconstruct bit_cast n source2 target2 c0 c1 = Ok out ->
  forall i, 0 <= i < n ->
    exists byte1 byte2,
      source1 !! Z.to_nat (i / 8) = Some byte1 /\
      source2 !! Z.to_nat (i / 8) = Some byte2 /\
      Z.testbit byte1 (7 - i mod 8) = Z.testbit byte2 (7 - i mod 8).
Proof.
  intros Hdistinct Hrun1 Hrun2 i Hi.
  assert (forall source target,
            reconstruct bit_cast n source target c0 c1 = Ok out ->
            exists byte, source !! Z.to_nat (i / 8) = Some byte /\
                         out !! Z.to_nat i
                           = Some (bit_cast (if Z.testbit byte (7 - i mod 8)
                                             then c1 else c0))) as Hsel.
  { intros source target Hrun.
    assert (n <= Z.of_nat (length target) /\ n <= 8 * Z.of_nat (length source))
      as [Htgt Hsrc].
    { unfold reconstruct in Hrun. apply reconstruct_from_Ok in Hrun; lia. }
    destruct (reconstruct_in_range bit_cast n source target c0 c1
                ltac:(lia) Htgt Hsrc) as (out' & Hrun' & _ & Hin & _).
    assert (out' = out) as -> by congruence. by apply Hin. }
  destruct (Hsel source1 target1 Hrun1) as (b1 & Hb1 & Ho1).
  destruct (Hsel source2 target2 Hrun2) as (b2 & Hb2 & Ho2).
  exists b1, b2. split; [exact Hb1 |]. split; [exact Hb2 |].
  rewrite Ho1 in Ho2. injection Ho2 as Heq.
  destruct (Z.testbit b1 (7 - i mod 8)), (Z.testbit b2 (7 - i mod 8));
    congruence.
Qed.

(** Running [reconstruct] again over its own output changes nothing. *)
Theorem reconstruct_idempotent (n : Z) (source : list Z) (target out : list T)
    (c0 c1 : color_type) :
  reconstruct bit_cast n source target c0 c1 = Ok out ->
  reconstruct bit_cast n source out c0 c1 = Ok out.
Proof.
  intros Hrun.
  destruct (Z_le_gt_dec n 0) as [Hle | Hpos].
  { rewrite (reconstruct_nonpositive bit_cast n source target c0 c1 Hle) in Hrun.
    injection Hrun as <-. by apply reconstruct_nonpositive. }
  assert (n <= Z.of_nat (length target) /\ n <= 8 * Z.of_nat (length source))
    as [Htgt Hsrc].
  { unfold reconstruct in Hrun. apply reconstruct_from_Ok in Hrun; lia. }
  destruct (reconstruct_in_range bit_cast n source target c0 c1
              ltac:(lia) Htgt Hsrc) as (out1 & Hrun1 & Hlen1 & Hin1 & _).
  assert (out1 = out) as -> by congruence.
  destruct (reconstruct_in_range bit_cast n source out c0 c1
              ltac:(lia) ltac:(lia) Hsrc) as (out2 & -> & _ & Hin2 & Hother2).
  f_equal. apply list_eq. intros j.
  destruct (Z_lt_le_dec (Z.of_nat j) n) as [Hlt | Hge].
  - destruct (Hin1 (Z.of_nat j) ltac:(lia)) as (b1 & Hb1 & Ho1).
    destruct (Hin2 (Z.of_nat j) ltac:(lia)) as (b2 & Hb2 & Ho2).
    rewrite Hb1 in Hb2. injection Hb2 as <-.
    rewrite Nat2Z.id in Ho1, Ho2. by rewrite Ho1, Ho2.
  - by apply Hother2.
Qed.

(** A target of exactly [n] slots is overwritten whole: the outcome does not
    depend on what it held. *)
Lemma reconstruct_overwrites (n : Z) (source : list Z) (target1 target2 out : list T)
    (c0 c1 : color_type) :
  reconstruct bit_cast n source target1 c0 c1 = Ok out ->
  length target2 = length target1 ->
  Z.of_nat (length target1) <= Z.max 0 n ->
  reconstruct bit_cast n source target2 c0 c1 = Ok out.
Proof.
  intros Hrun Hlen Hfull.
  destruct (Z_le_gt_dec n 0) as [Hle | Hpos].
  { rewrite (reconstruct_nonpositive bit_cast n source target1 c0 c1 Hle) in Hrun.
    injection Hrun as <-.
    destruct target1; [| simpl in Hfull; lia].
    destruct target2; [| discriminate].
    by apply reconstruct_nonpositive. }
  assert (n <= Z.of_nat (length target1) /\ n <= 8 * Z.of_nat (length source))
    as [Htgt Hsrc].
  { unfold reconstruct in Hrun. apply reconstruct_from_Ok in Hrun; lia. }
  destruct (reconstruct_in_range bit_cast n source target1 c0 c1
              ltac:(lia) Htgt Hsrc) as (out1 & Hrun1 & Hlen1 & Hin1 & _).
  assert (out1 = out) as -> by congruence.
  destruct (reconstruct_in_range bit_cast n source target2 c0 c1
              ltac:(lia) ltac:(lia) Hsrc) as (out2 & -> & Hlen2 & Hin2 & _).
  f_equal. apply list_eq. intros j.
  destruct (Z_lt_le_dec (Z.of_nat j) n) as [Hlt | Hge].
  - destruct (Hin1 (Z.of_nat j) ltac:(lia)) as (b1 & Hb1 & Ho1).
    destruct (Hin2 (Z.of_nat j) ltac:(lia)) as (b2 & Hb2 & Ho2).
    rewrite Hb1 in Hb2. injection Hb2 as <-.
    rewrite Nat2Z.id in Ho1, Ho2. by rewrite Ho1, Ho2.
  - rewrite !lookup_ge_None_2; [done | lia | lia].
Qed.
End reconstruct_bits.

Lemma reconstruct_depends_on_bits_witness :
  reconstruct (fun c : Z => c) 3 [0xB0] [0; 0; 0] 10 11
    = reconstruct (fun c : Z => c) 3 [0xBF; 0x55] [0; 0; 0] 10 11.
Proof.
  apply (reconstruct_depends_on_bits (fun c : Z => c) 3 [0xB0] [0xBF; 0x55]
           [0; 0; 0] 10 11); try (simpl; lia).
  intros i Hi.
  assert (i = 0 \/ i = 1 \/ i = 2) as [-> | [-> | ->]] by lia; reflexivity.
Defined.

Lemma reconstruct_injective_witness :
  exists byte1 byte2,
    [0xB0] !! Z.to_nat (2 / 8) = Some byte1 /\
    [0xBF] !! Z.to_nat (2 / 8) = Some byte2 /\
    Z.testbit byte1 (7 - 2 mod 8) = Z.testbit byte2 (7 - 2 mod 8).
Proof.
  apply (reconstruct_injective (fun c : Z => c) 3 [0xB0] [0xBF]
           [0; 0; 0] [7; 7; 7] [11; 10; 11] 10 11);
    [lia | reflexivity | reflexivity | lia].
Defined.

Lemma reconstruct_idempotent_witness :
  reconstruct (fun c : Z => c) 3 [0xB0] [11; 10; 11; 5] 10 11
    = Ok [11; 10; 11; 5].
Proof.
  apply (reconstruct_idempotent (fun c : Z => c) 3 [0xB0] [0; 0; 0; 5]).
  reflexivity.
Defined.

(** ** The palette outside [1, 4] *)

Lemma get_sized_color_pair_in_range (bpp : Z) (head : header) :
  1 <= bpp <= 4 ->
  get_sized_color_pair bpp head
    = Ok (take (Z.to_nat bpp) (bytes_of_u32 (color0 head)),
          take (Z.to_nat bpp) (bytes_of_u32 (color1 head))).
Proof.
  intros Hbpp.
  assert (bpp = 1 \/ bpp = 2 \/ bpp = 3 \/ bpp = 4) as Hcases by lia.
  destruct Hcases as [-> | [-> | [-> | ->]]]; reflexivity.
Qed.

Lemma read_at_in_range {A : Type} (l : list A) (i : Z) :
  0 <= i < Z.of_nat (length l) -> exists x, read_at l i = Ok x.
Proof.
  intros Hi. unfold read_at.
  assert ((i <? 0) = false) as -> by (apply Z.ltb_ge; lia).
  destruct (lookup_lt_is_Some_2 l (Z.to_nat i) ltac:(lia)) as [x ->]. eauto.
Qed.

Lemma write_at_in_range {A : Type} (l : list A) (i : Z) (x : A) :
  0 <= i < Z.of_nat (length l) -> write_at l i x = Ok (<[Z.to_nat i := x]> l).
Proof.
  intros Hi. unfold write_at.
  assert ((0 <=? i) = true) as -> by (apply Z.leb_le; lia).
  by assert ((i <? Z.of_nat (length l)) = true) as -> by (apply Z.ltb_lt; lia).
Qed.

Lemma copy_components_overrun (remaining : nat) :
  forall (i : Z) (h0 h1 c0 c1 : list Z),
  length h0 = 4%nat -> length h1 = 4%nat ->
  0 <= i <= 4 -> 4 < i + Z.of_nat remaining ->
  i + Z.of_nat remaining <= Z.of_nat (length c0) ->
  i + Z.of_nat remaining <= Z.of_nat (length c1) ->
  copy_components remaining i h0 h1 c0 c1 = Undefined.
Proof.
  induction remaining as [| remaining IH]; intros i h0 h1 c0 c1 Hh0 Hh1 Hi Hover Hc0 Hc1;
    [lia |].
  simpl. destruct (Z.eq_dec i 4) as [-> | Hne].
  - unfold read_at. simpl.
    rewrite (lookup_ge_None_2 h0) by lia. reflexivity.
  - destruct (read_at_in_range h0 i ltac:(lia)) as [x0 ->]. simpl.
    rewrite write_at_in_range by lia. simpl.
    destruct (read_at_in_range h1 i ltac:(lia)) as [x1 ->]. simpl.
    rewrite write_at_in_range by lia. simpl.
    apply IH; rewrite ?length_insert; lia.
Qed.

Lemma get_sized_color_pair_overrun (bpp : Z) (head : header) :
  4 < bpp -> get_sized_color_pair bpp head = Undefined.
Proof.
  intros Hbpp. unfold get_sized_color_pair.
  apply copy_components_overrun; rewrite ?length_replicate; try done; lia.
Qed.

(** The palette of more than 4 bytes per colour does not exist: the copy
    loop reads a fifth component of a stored colour, which has 4.  No
    positive count is needed for that: the palette is built before the
    first element. *)
Theorem get_sized_color_pair_wide (bpp : Z) (head : header) :
  4 < bpp -> get_sized_color_pair bpp head = Undefined.
Proof.
  intros Hbpp. unfold get_sized_color_pair.
  assert (Z.of_nat (Z.to_nat bpp) = bpp) as Hnat by lia.
  apply copy_components_overrun.
  - reflexivity.
  - reflexivity.
  - lia.
  - lia.
  - rewrite length_replicate. lia.
  - rewrite length_replicate. lia.
Qed.

Lemma get_sized_color_pair_wide_witness :
  get_sized_color_pair 8 (Header 2 1 8 8 1 0x44332211 0xDDCCBBAA) = Undefined.
Proof. apply get_sized_color_pair_wide. lia. Defined.

(** ** Decoding a DualColorImage *)

Section dual.
Variable sizeof_T : positive.
Variable source : list Z.
Variable head : header.
Hypothesis Hhead : value (get_header source) = Ok head.
Hypothesis Hdual : type head = 2.
Hypothesis Hfit : width head * height head <= int_max.

Let sz : nat := Pos.to_nat sizeof_T.
Let n : Z := width head * height head.
Let payload : list Z := source_bytes (drop 3 source).

Lemma dual_count : get_element_count_T sizeof_T head = Ok n /\ 0 <= n.
Proof.
  pose proof (get_header_wf source head Hhead) as Hwf.
  split.
  - unfold get_element_count_T. rewrite Hdual. simpl.
    apply get_element_count_fits; [done | lia | done].
  - destruct Hwf as (_ & _ & _ & Hw & Hh & _). subst n. nia.
Qed.

Lemma decode_to_vector_dual_run :
  decode_to_vector sizeof_T source
    = '(c0, c1) ← get_sized_color_pair (Z.pos sizeof_T) head;
      reconstruct id n payload (replicate (Z.to_nat n) (replicate sz 0)) c0 c1.
Proof.
  destruct dual_count as [Hcount Hn].
  pose proof (get_header_dual_length source head Hhead Hdual) as Hwords.
  unfold decode_to_vector. rewrite Hhead. simpl. rewrite Hcount. simpl.
  unfold new_vector.
  assert ((n <? 0) = false) as -> by (apply Z.ltb_ge; lia). simpl.
  unfold data_start_ptr.
  assert ((3 <=? length source)%nat = true) as -> by (apply Nat.leb_le; lia).
  simpl. by rewrite Hdual.
Qed.

Lemma decode_into_pointer_dual_run (dst : list (list Z)) :
  decode_into_pointer sizeof_T source dst
    = '(c0, c1) ← get_sized_color_pair (Z.pos sizeof_T) head;
      reconstruct id n payload dst c0 c1.
Proof.
  destruct dual_count as [Hcount Hn].
  pose proof (get_header_dual_length source head Hhead Hdual) as Hwords.
  unfold decode_into_pointer. rewrite Hhead. simpl. rewrite Hcount. simpl.
  unfold data_start_ptr.
  assert ((3 <=? length source)%nat = true) as -> by (apply Nat.leb_le; lia).
  simpl. by rewrite Hdual.
Qed.

(** Decoding a DualColorImage into elements of more than 4 bytes is
    undefined, for the vector decode and for the pointer decode, whatever the
    image holds. *)
Theorem decode_dual_wide_undefined :
  4 < Z.pos sizeof_T ->
  decode_to_vector sizeof_T source = Undefined /\
  forall dst, decode_into_pointer sizeof_T source dst = Undefined.
Proof.
  intros Hwide. split; [| intros dst].
  - rewrite decode_to_vector_dual_run. by rewrite get_sized_color_pair_overrun.
  - rewrite decode_into_pointer_dual_run. by rewrite get_sized_color_pair_overrun.
Qed.

(** The vector decode of a DualColorImage whose pixel count fits an [int],
    into elements of at most 4 bytes:
    [width * height] elements, element [i] being the first [sizeof(T)] bytes
    of [color1] when bit [7 - i % 8] of payload byte [i / 8] is set and of
    [color0] when it is clear.  The payload has to hold a bit for every
    element; the header's [bpp] and [bit_count] are not consulted. *)
Theorem decode_to_vector_dual :
  Z.pos sizeof_T <= 4 ->
  n <= 8 * Z.of_nat (length payload) ->
  exists out,
    decode_to_vector sizeof_T source = Ok out /\
    length out = Z.to_nat n /\
    forall i, 0 <= i < n ->
      exists byte,
        payload !! Z.to_nat (i / 8) = Some byte /\
        out !! Z.to_nat i
          = Some (take sz (bytes_of_u32 (if Z.testbit byte (7 - i mod 8)
                                         then color1 head else color0 head))).
Proof.
  intros Hsize Hbits. destruct dual_count as [_ Hn].
  rewrite decode_to_vector_dual_run.
  rewrite get_sized_color_pair_in_range by lia. simpl.
  destruct (reconstruct_in_range id n payload
              (replicate (Z.to_nat n) (replicate sz 0))
              (take (Z.to_nat (Z.pos sizeof_T)) (bytes_of_u32 (color0 head)))
              (take (Z.to_nat (Z.pos sizeof_T)) (bytes_of_u32 (color1 head)))
              Hn ltac:(rewrite length_replicate; lia) Hbits)
    as (out & Hrun & Hlen & Hin & _).
  exists out. split; [exact Hrun |].
  split; [by rewrite Hlen, length_replicate |].
  intros i Hi. destruct (Hin i Hi) as (byte & Hbyte & Hout).
  exists byte. split; [exact Hbyte |]. rewrite Hout.
  change (Z.to_nat (Z.pos sizeof_T)) with sz.
  by destruct (Z.testbit byte (7 - i mod 8)).
Qed.

(** The pointer decode of a DualColorImage whose pixel count fits an [int],
    into elements of at most 4 bytes, writes the same elements to the first
    [width * height] slots of the destination and leaves the rest. *)
Theorem decode_into_pointer_dual (dst : list (list Z)) :
  Z.pos sizeof_T <= 4 ->
  n <= 8 * Z.of_nat (length payload) ->
  n <= Z.of_nat (length dst) ->
  exists out,
    decode_into_pointer sizeof_T source dst = Ok out /\
    length out = length dst /\
    (forall i, 0 <= i < n ->
       exists byte,
         payload !! Z.to_nat (i / 8) = Some byte /\
         out !! Z.to_nat i
           = Some (take sz (bytes_of_u32 (if Z.testbit byte (7 - i mod 8)
                                          then color1 head else color0 head)))) /\
    (forall j : nat, n <= Z.of_nat j -> out !! j = dst !! j).
Proof.
  intros Hsize Hbits Hroom. destruct dual_count as [_ Hn].
  rewrite decode_into_pointer_dual_run.
  rewrite get_sized_color_pair_in_range by lia. simpl.
  destruct (reconstruct_in_range id n payload dst
              (take (Z.to_nat (Z.pos sizeof_T)) (bytes_of_u32 (color0 head)))
              (take (Z.to_nat (Z.pos sizeof_T)) (bytes_of_u32 (color1 head)))
              Hn Hroom Hbits)
    as (out & Hrun & Hlen & Hin & Hother).
  exists out. split; [exact Hrun |]. split; [exact Hlen |].
  split; [| exact Hother].
  intros i Hi. destruct (Hin i Hi) as (byte & Hbyte & Hout).
  exists byte. split; [exact Hbyte |]. rewrite Hout.
  change (Z.to_nat (Z.pos sizeof_T)) with sz.
  by destruct (Z.testbit byte (7 - i mod 8)).
Qed.
End dual.

Lemma decode_dual_wide_undefined_witness :
  decode_to_vector 8 dual_8x1 = Undefined.
Proof.
  refine (proj1 (decode_dual_wide_undefined 8 dual_8x1
                   (Header 2 1 8 8 1 0x44332211 0xDDCCBBAA) eq_refl eq_refl _ _)).
  - vm_compute. congruence.
  - lia.
Defined.

Lemma decode_to_vector_dual_witness :
  exists out,
    decode_to_vector 2 dual_8x1 = Ok out /\ length out = 8%nat.
Proof.
  destruct (decode_to_vector_dual 2 dual_8x1
              (Header 2 1 8 8 1 0x44332211 0xDDCCBBAA) eq_refl eq_refl
              ltac:(vm_compute; congruence) ltac:(lia) ltac:(vm_compute; congruence))
    as (out & Hrun & Hlen & _).
  exists out. split; [exact Hrun | exact Hlen].
Defined.

Lemma decode_into_pointer_dual_witness :
  exists out,
    decode_into_pointer 2 dual_8x1 (replicate 9 [7; 7]) = Ok out /\
    out !! 8%nat = Some [7; 7].
Proof.
  destruct (decode_into_pointer_dual 2 dual_8x1
              (Header 2 1 8 8 1 0x44332211 0xDDCCBBAA) eq_refl eq_refl
              ltac:(vm_compute; congruence) (replicate 9 [7; 7])
              ltac:(lia) ltac:(vm_compute; congruence) ltac:(vm_compute; congruence))
    as (out & Hrun & _ & _ & Hother).
  exists out. split; [exact Hrun |].
  rewrite (Hother 8%nat); [reflexivity | vm_compute; congruence].
Defined.

(** ** The pointer decode against the vector decode *)

Lemma reconstruct_from_length {color_type T : Type} (bit_cast : color_type -> T)
    (remaining : nat) :
  forall (i : Z) (source : list Z) (target out : list T) (c0 c1 : color_type),
  reconstruct_from bit_cast remaining i source target c0 c1 = Ok out ->
  length out = length target.
Proof.
  induction remaining as [| remaining IH]; intros i source target out c0 c1 Hrun;
    simpl in Hrun; [by injection Hrun as <- |].
  unfold reconstruct_step in Hrun.
  destruct (read_at source (Z.quot i 8)) as [byte | | |]; simpl in Hrun;
    try discriminate.
  destruct (write_at target i _) as [target' | | |] eqn:Hwrite; simpl in Hrun;
    try discriminate.
  apply write_at_Ok in Hwrite as [_ ->].
  apply IH in Hrun. by rewrite length_insert in Hrun.
Qed.

(** Whatever the vector decode returns, the pointer decode writes to a
    destination of that many elements of [sizeof(T)] bytes, whatever the
    destination held before. *)
Theorem decode_into_pointer_matches_vector (sizeof_T : positive)
    (source : list Z) (out dst : list (list Z)) :
  decode_to_vector sizeof_T source = Ok out ->
  Forall (fun e => length e = Pos.to_nat sizeof_T) dst ->
  length dst = length out ->
  decode_into_pointer sizeof_T source dst = Ok out.
Proof.
  intros Hvec Hsized Hlen.
  unfold decode_to_vector in Hvec. unfold decode_into_pointer.
  destruct (value (get_header source)) as [head | | |] eqn:Hhead;
    simpl in Hvec; try discriminate. simpl.
  pose proof (get_header_wf source head Hhead) as Hwf.
  destruct (get_element_count_T sizeof_T head) as [n | | |] eqn:Hcount;
    simpl in Hvec; try discriminate. simpl.
  unfold new_vector in Hvec.
  destruct (n <? 0) eqn:Hneg; simpl in Hvec; [discriminate |].
  apply Z.ltb_ge in Hneg.
  destruct (data_start_ptr source) as [data | | |]; simpl in Hvec;
    try discriminate. simpl.
  destruct (type head =? 2) eqn:Hty.
  - destruct (get_sized_color_pair (Z.pos sizeof_T) head) as [[c0 c1] | | |];
      simpl in Hvec; try discriminate. simpl.
    pose proof (reconstruct_from_length _ _ _ _ _ _ _ _ Hvec) as Hout.
    rewrite length_replicate in Hout.
    eapply reconstruct_overwrites; [exact Hvec | |];
      rewrite length_replicate; lia.
  - apply Z.eqb_neq in Hty.
    destruct Hwf as (_ & _ & Hbits & _).
    rewrite get_element_count_T_bytes in Hcount by done.
    injection Hcount as <-.
    destruct (byte_count_exact sizeof_T (bit_count head) Hbits) as [_ Hbytes].
    rewrite Hbytes in Hvec |- *.
    set (count := Z.to_nat (bit_count head / 8 / Z.pos sizeof_T)) in *.
    set (sz := Pos.to_nat sizeof_T) in *.
    destruct (Nat.eq_dec count 0%nat) as [Hzero | Hcopies].
    { rewrite Hzero in Hvec. discriminate. }
    rewrite memcpy_vector_replicate in Hvec by lia.
    pose proof (concat_sized_length sz _ (replicate_sized sz count 0)) as Hzeros.
    rewrite length_replicate in Hzeros.
    pose proof (concat_sized_length sz dst Hsized) as Hdst.
    unfold memcpy in Hvec |- *.
    rewrite Hzeros in Hvec. rewrite Hdst.
    destruct (Z.of_nat (sz * count) <=? Z.of_nat (length data)) eqn:Hdata;
      simpl in Hvec; [| discriminate].
    assert ((Z.of_nat (sz * count) <=? Z.of_nat (sz * count)%nat) = true) as Hrefl
      by (apply Z.leb_le; lia).
    rewrite Hrefl in Hvec. simpl in Hvec.
    rewrite length_replicate, Nat2Z.id in Hvec.
    rewrite drop_ge, app_nil_r in Hvec by lia.
    injection Hvec as <-.
    rewrite elements_of_bytes_length in Hlen.
    rewrite Hlen, Hrefl. simpl.
    by rewrite Nat2Z.id, drop_ge, app_nil_r by lia.
Qed.

Lemma decode_into_pointer_matches_vector_witness :
  decode_into_pointer 3 image_2x1 [[1; 2; 3]; [4; 5; 6]]
    = Ok [[0x10; 0x20; 0x30]; [0x40; 0x50; 0x60]].
Proof.
  apply decode_into_pointer_matches_vector.
  - reflexivity.
  - repeat constructor.
  - reflexivity.
Defined.

(** ** The array decode *)

Lemma int_mul_Ok (a b n : Z) :
  int_mul a b = Ok n -> n = a * b /\ int_min <= n <= int_max.
Proof.
  unfold int_mul.
  destruct (int_min <=? a * b) eqn:Hlo; simpl; [| discriminate].
  destruct (a * b <=? int_max) eqn:Hhi; [| discriminate].
  apply Z.leb_le in Hlo, Hhi. intros [= <-]. lia.
Qed.

(** An array that [bit_cast]s to the wrapper of [count] elements of [sz]
    bytes, aligned no more strictly than a word, has its three header words
    and the bytes of the elements. *)
Lemma wrapper_fits (sz : Z) (align_T : nat) (count : Z) (source : list Z) :
  (align_T <= 3)%nat ->
  sizeof_wrapper sz align_T count = 8 * Z.of_nat (length source) ->
  (3 <= length source)%nat /\
  sz * count <= Z.of_nat (length (source_bytes (drop 3 source))).
Proof.
  intros Halign Hsize.
  destruct (wrapper_layout_word_aligned sz align_T count Halign) as [_ Hlayout].
  rewrite Hlayout in Hsize.
  rewrite source_bytes_length, length_drop.
  pose proof (Z.div_mod (Z.max 1 (sz * count) + 7) 8 ltac:(lia)) as Hdm.
  pose proof (Z.mod_pos_bound (Z.max 1 (sz * count) + 7) 8 ltac:(lia)) as Hm.
  lia.
Qed.

Lemma sized_concat_inj (sz : nat) (l1 l2 : list (list Z)) :
  Forall (fun e => length e = sz) l1 -> Forall (fun e => length e = sz) l2 ->
  length l1 = length l2 -> concat l1 = concat l2 -> l1 = l2.
Proof.
  intros H1 H2 Hlen Hconcat.
  rewrite <- (elements_of_bytes_of_concat sz l1 H1).
  rewrite <- (elements_of_bytes_of_concat sz l2 H2).
  by rewrite Hlen, Hconcat.
Qed.

(** The array decode of a DualColorImage: for an element type of [bpp]
    bytes, a positive pixel count and an index plane of [ceil(bit_count / 8)]
    bytes that holds a bit for every pixel, pixel [i] is the first [bpp]
    bytes of the colour that bit [7 - i % 8] of payload byte [i / 8]
    selects. *)
Theorem decode_to_array_dual (sizeof_T : positive) (align_T : nat)
    (head : header) (source : list Z) :
  let sz := Pos.to_nat sizeof_T in
  let n := width head * height head in
  let byte_count := get_byte_count_from_bit_count (to_int (bit_count head)) in
  let payload := source_bytes (drop 3 source) in
  header_wf head -> type head = 2 ->
  Z.pos sizeof_T = bpp head -> bpp head <= 4 ->
  0 < n <= int_max ->
  sizeof_wrapper 1 0 byte_count = 8 * Z.of_nat (length source) ->
  n <= 8 * byte_count ->
  exists out,
    decode_to_array_default sizeof_T align_T head source = Ok out /\
    length out = Z.to_nat n /\
    forall i, 0 <= i < n ->
      exists byte,
        payload !! Z.to_nat (i / 8) = Some byte /\
        out !! Z.to_nat i
          = Some (take sz (bytes_of_u32 (if Z.testbit byte (7 - i mod 8)
                                         then color1 head else color0 head))).
Proof.
  cbv zeta. intros Hwf Hdual Hbpp Hsmall Hn Hsize Hbits.
  set (n := width head * height head) in *.
  set (byte_count := get_byte_count_from_bit_count (to_int (bit_count head))) in *.
  destruct (wrapper_fits 1 0 byte_count source ltac:(lia) Hsize)
    as [Hwords Hpayload].
  destruct (wrapper_layout_word_aligned 1 0 byte_count ltac:(lia))
    as [Hoffset _].
  unfold decode_to_array_default, get_element_count_T. rewrite Hdual.
  change (2 =? 2) with true. cbv iota.
  rewrite get_element_count_fits by (done || lia).
  unfold decode_to_array. fold n.
  assert ((n >? 0) = true) as -> by (apply Z.gtb_lt; lia).
  rewrite Hdual. change (2 =? 2) with true. cbv iota. cbn [negb].
  rewrite Hbpp, Z.eqb_refl. cbn [negb].
  fold byte_count. unfold wrapper_data.
  assert ((byte_count <? 0) = false) as -> by (apply Z.ltb_ge; lia).
  rewrite Hsize, Z.eqb_refl, Hoffset. simpl.
  rewrite get_sized_color_pair_in_range by lia. simpl.
  rewrite source_bytes_drop_header.
  set (payload := source_bytes (drop 3 source)) in *.
  set (interm := take (Z.to_nat (1 * byte_count)) payload).
  assert (length interm = Z.to_nat byte_count) as Hinterm.
  { subst interm. rewrite length_take. lia. }
  destruct (reconstruct_in_range id n interm
              (replicate (Z.to_nat n) (replicate (Pos.to_nat sizeof_T) 0))
              (take (Z.to_nat (bpp head)) (bytes_of_u32 (color0 head)))
              (take (Z.to_nat (bpp head)) (bytes_of_u32 (color1 head)))
              ltac:(lia) ltac:(rewrite length_replicate; lia) ltac:(lia))
    as (out & Hrun & Hlen & Hin & _).
  exists out. split; [exact Hrun |].
  split; [by rewrite Hlen, length_replicate |].
  intros i Hi. destruct (Hin i Hi) as (byte & Hbyte & Hout).
  exists byte. split.
  - subst interm. by apply lookup_take_Some in Hbyte as [? _].
  - rewrite Hout, <- Hbpp.
    change (Z.to_nat (Z.pos sizeof_T)) with (Pos.to_nat sizeof_T).
    by destruct (Z.testbit byte (7 - i mod 8)).
Qed.

Lemma decode_to_array_dual_witness :
  exists out,
    decode_to_array_default 1 0 (Header 2 1 8 8 1 0x44332211 0xDDCCBBAA) dual_8x1
      = Ok out /\ length out = 8%nat.
Proof.
  destruct (decode_to_array_dual 1 0 (Header 2 1 8 8 1 0x44332211 0xDDCCBBAA)
              dual_8x1) as (out & Hrun & Hlen & _).
  - vm_compute. intuition congruence.
  - reflexivity.
  - reflexivity.
  - simpl. lia.
  - vm_compute. intuition congruence.
  - reflexivity.
  - vm_compute. congruence.
  - exists out. split; [exact Hrun | exact Hlen].
Defined.

Lemma reconstruct_same_bytes {color_type T : Type} (bit_cast : color_type -> T)
    (n : Z) (source : list Z) (k : nat) (target out : list T)
    (c0 c1 : color_type) :
  reconstruct bit_cast n (take k source) target c0 c1 = Ok out ->
  reconstruct bit_cast n source target c0 c1 = Ok out.
Proof.
  intros Hrun.
  destruct (Z_le_gt_dec n 0) as [Hle | Hpos].
  { unfold reconstruct in *. by replace (Z.to_nat n) with 0%nat in * by lia. }
  assert (n <= Z.of_nat (length target) /\
          n <= 8 * Z.of_nat (length (take k source))) as [Htgt Hsrc].
  { unfold reconstruct in Hrun. apply reconstruct_from_Ok in Hrun; lia. }
  assert (length (take k source) <= length source)%nat as Hshort
    by (rewrite length_take; lia).
  destruct (reconstruct_in_range bit_cast n (take k source) target c0 c1
              ltac:(lia) Htgt Hsrc) as (out1 & Hrun1 & Hlen1 & Hin1 & Hother1).
  assert (out1 = out) as -> by congruence.
  destruct (reconstruct_in_range bit_cast n source target c0 c1
              ltac:(lia) Htgt ltac:(lia)) as (out2 & -> & Hlen2 & Hin2 & Hother2).
  f_equal. apply list_eq. intros j.
  destruct (Z_lt_le_dec (Z.of_nat j) n) as [Hlt | Hge].
  - destruct (Hin1 (Z.of_nat j) ltac:(lia)) as (b1 & Hb1 & Ho1).
    destruct (Hin2 (Z.of_nat j) ltac:(lia)) as (b2 & Hb2 & Ho2).
    apply lookup_take_Some in Hb1 as [Hb1 _].
    rewrite Hb1 in Hb2. injection Hb2 as <-.
    rewrite Nat2Z.id in Ho1, Ho2. by rewrite Ho1, Ho2.
  - by rewrite Hother1, Hother2.
Qed.

(** Whatever the array decode returns for the header of its source, the
    vector decode of that source returns too, for a DualColorImage and, for
    the other kinds, for an element type aligned no more strictly than a
    word. *)
Theorem decode_to_array_matches_vector (sizeof_T : positive) (align_T : nat)
    (source : list Z) (head : header) (out : list (list Z)) :
  value (get_header source) = Ok head ->
  type head = 2 \/ (align_T <= 3)%nat ->
  decode_to_array_default sizeof_T align_T head source = Ok out ->
  decode_to_vector sizeof_T source = Ok out.
Proof.
  intros Hhead Haligned Harr.
  pose proof (get_header_wf source head Hhead) as Hwf.
  unfold decode_to_array_default in Harr.
  destruct (get_element_count_T sizeof_T head) as [n | | |] eqn:Hcount;
    simpl in Harr; try discriminate.
  unfold decode_to_array in Harr.
  destruct (n >? 0) eqn:Hpos; cbn [negb] in Harr; [| discriminate].
  apply Z.gtb_lt in Hpos.
  destruct (type head =? 2) eqn:Hty.
  - apply Z.eqb_eq in Hty.
    destruct (Z.pos sizeof_T =? bpp head) eqn:Hbpp; cbn [negb] in Harr;
      [| discriminate].
    apply Z.eqb_eq in Hbpp. rewrite <- Hbpp in Harr.
    unfold get_element_count_T in Hcount. rewrite Hty in Hcount. simpl in Hcount.
    unfold get_element_count in Hcount. rewrite Hty in Hcount. simpl in Hcount.
    apply int_mul_Ok in Hcount as [-> Hrange].
    rewrite (decode_to_vector_dual_run sizeof_T source head Hhead Hty ltac:(lia)).
    unfold wrapper_data in Harr.
    destruct (_ <? 0); [discriminate |].
    destruct (sizeof_wrapper 1 0 _ =? _); simpl in Harr; [| discriminate].
    destruct (get_sized_color_pair (Z.pos sizeof_T) head) as [[c0 c1] | | |];
      simpl in Harr; try discriminate. simpl.
    change (Z.to_nat (wrapper_data_offset 0)) with 24%nat in Harr.
    rewrite source_bytes_drop_header in Harr.
    by apply reconstruct_same_bytes in Harr.
  - apply Z.eqb_neq in Hty.
    assert (n = bit_count head / 8 / Z.pos sizeof_T) as ->.
    { rewrite get_element_count_T_bytes in Hcount by (apply Hwf || done).
      by injection Hcount. }
    assert (align_T <= 3)%nat as Halign by (destruct Haligned; [done | lia]).
    unfold wrapper_data in Harr.
    destruct (_ <? 0); [discriminate |].
    destruct (sizeof_wrapper _ _ _ =? _) eqn:Hsize; simpl in Harr; [| discriminate].
    apply Z.eqb_eq in Hsize.
    destruct (wrapper_fits _ _ _ _ Halign Hsize) as [Hwords Hpayload].
    destruct (wrapper_layout_word_aligned (Z.pos sizeof_T) align_T 0 Halign)
      as [Hoffset _].
    rewrite Hoffset in Harr.
    set (count := Z.to_nat (bit_count head / 8 / Z.pos sizeof_T)) in *.
    assert (Pos.to_nat sizeof_T * count <= length (source_bytes (drop 3 source)))%nat
      as Hroom by (subst count; lia).
    destruct (decode_to_vector_verbatim sizeof_T source head Hty Hwf Hhead
                Hwords Hroom ltac:(subst count; lia))
      as (out' & -> & Hlen' & Hsized' & Hconcat').
    f_equal. injection Harr as <-.
    change (Z.to_nat 24) with 24%nat.
    rewrite source_bytes_drop_header.
    replace (Z.to_nat (Z.pos sizeof_T * (bit_count head / 8 / Z.pos sizeof_T)))
      with (Pos.to_nat sizeof_T * count)%nat by (subst count; lia).
    rewrite elements_of_bytes_take by lia.
    apply (sized_concat_inj (Pos.to_nat sizeof_T)).
    + exact Hsized'.
    + by apply elements_of_bytes_sizes.
    + by rewrite elements_of_bytes_length.
    + by rewrite elements_of_bytes_concat.
Qed.

Lemma decode_to_array_matches_vector_witness :
  decode_to_vector 1 dual_8x1
    = Ok [[0xAA]; [0x11]; [0xAA]; [0xAA]; [0x11]; [0x11]; [0x11]; [0x11]].
Proof.
  apply (decode_to_array_matches_vector 1 0 dual_8x1
           (Header 2 1 8 8 1 0x44332211 0xDDCCBBAA));
    [reflexivity | left; reflexivity | reflexivity].
Defined.

(** A payload of fewer bytes than one element: the array decode is rejected
    by its [static_assert]; the vector decode hands the null [data()] of its
    empty vector to [memcpy], which is undefined; the pointer decode leaves
    the destination as it is. *)
Theorem decode_less_than_one_element (sizeof_T : positive) (align_T : nat)
    (source : list Z) (head : header) :
  value (get_header source) = Ok head -> type head <> 2 ->
  (3 <= length source)%nat ->
  bit_count head / 8 < Z.pos sizeof_T ->
  decode_to_array_default sizeof_T align_T head source
    = StaticAssert "Not enough bytes to even fill one of those types." /\
  decode_to_vector sizeof_T source = Undefined /\
  forall dst, Forall (fun e => length e = Pos.to_nat sizeof_T) dst ->
    decode_into_pointer sizeof_T source dst = Ok dst.
Proof.
  intros Hhead Hty Hwords Hless.
  pose proof (get_header_wf source head Hhead) as Hwf.
  pose proof Hwf as (_ & _ & Hbits & _).
  assert (bit_count head / 8 / Z.pos sizeof_T = 0) as Hzero.
  { apply Z.div_small. split; [apply Z.div_pos; lia | lia]. }
  split; [| split].
  - unfold decode_to_array_default.
    rewrite get_element_count_T_bytes by (apply Hwf || done).
    by rewrite Hzero.
  - unfold decode_to_vector. rewrite Hhead. simpl.
    rewrite get_element_count_T_bytes by (apply Hwf || done).
    rewrite Hzero. simpl. unfold data_start_ptr.
    assert ((3 <=? length source)%nat = true) as -> by (apply Nat.leb_le; lia).
    simpl. apply Z.eqb_neq in Hty. by rewrite Hty.
  - intros dst Hsized.
    destruct (decode_into_pointer_verbatim sizeof_T source head Hty Hwf dst
                Hhead Hwords) as (front & -> & Hlen & _);
      [rewrite Hzero; simpl; lia | done | rewrite Hzero; simpl; lia |].
    rewrite Hzero in Hlen |- *. by destruct front.
Qed.

Lemma decode_less_than_one_element_witness :
  decode_to_vector 8 image_2x1 = Undefined /\
  decode_into_pointer 8 image_2x1 [[1; 2; 3; 4; 5; 6; 7; 8]]
    = Ok [[1; 2; 3; 4; 5; 6; 7; 8]].
Proof.
  destruct (decode_less_than_one_element 8 3 image_2x1
              (Header 1 3 48 2 1 0 0) eq_refl
              ltac:(simpl; lia) ltac:(simpl; lia) ltac:(vm_compute; reflexivity))
    as (_ & Hvec & Hptr).
  split; [exact Hvec |].
  apply Hptr. repeat constructor.
Defined.

(** The decoders trust [bit_count]: when the words after the header hold
    fewer bytes than the elements it announces, the copy reads past the end
    of the source. *)
Theorem decode_truncated_undefined (sizeof_T : positive) (source : list Z)
    (head : header) :
  value (get_header source) = Ok head -> type head <> 2 ->
  (3 <= length source)%nat ->
  8 * (Z.of_nat (length source) - 3)
    < Z.pos sizeof_T * (bit_count head / 8 / Z.pos sizeof_T) ->
  decode_to_vector sizeof_T source = Undefined /\
  forall dst, decode_into_pointer sizeof_T source dst = Undefined.
Proof.
  intros Hhead Hty Hwords Hshort.
  pose proof (get_header_wf source head Hhead) as Hwf.
  destruct Hwf as (_ & _ & Hbits & _).
  destruct (byte_count_exact sizeof_T (bit_count head) Hbits) as [Hn Hbytes].
  assert (forall dst,
            memcpy dst (source_bytes (drop 3 source))
              (Z.of_nat (Pos.to_nat sizeof_T
                         * Z.to_nat (bit_count head / 8 / Z.pos sizeof_T)))
            = Undefined) as Hcopy.
  { intros dst. unfold memcpy. rewrite source_bytes_length, length_drop.
    assert ((Z.of_nat (Pos.to_nat sizeof_T
                       * Z.to_nat (bit_count head / 8 / Z.pos sizeof_T))
             <=? Z.of_nat (8 * (length source - 3))) = false) as ->
      by (apply Z.leb_gt; lia).
    reflexivity. }
  assert ((3 <=? length source)%nat = true) as Hthree by (apply Nat.leb_le; lia).
  apply Z.eqb_neq in Hty.
  split; [| intros dst].
  - unfold decode_to_vector. rewrite Hhead. simpl.
    rewrite get_element_count_T_bytes by (done || by apply Z.eqb_neq). simpl.
    rewrite Hbytes. unfold new_vector.
    assert ((bit_count head / 8 / Z.pos sizeof_T <? 0) = false) as ->
      by (apply Z.ltb_ge; lia).
    simpl. unfold data_start_ptr. rewrite Hthree. simpl. rewrite Hty.
    rewrite memcpy_vector_replicate by nia.
    by rewrite Hcopy.
  - unfold decode_into_pointer. rewrite Hhead. simpl.
    rewrite get_element_count_T_bytes by (done || by apply Z.eqb_neq). simpl.
    rewrite Hbytes. unfold data_start_ptr. rewrite Hthree. simpl. rewrite Hty.
    by rewrite Hcopy.
Qed.

Lemma decode_truncated_undefined_witness :
  decode_to_vector 1 [word0 0 0 128; 0; 0; 0x0807060504030201] = Undefined.
Proof.
  refine (proj1 (decode_truncated_undefined 1
                   [word0 0 0 128; 0; 0; 0x0807060504030201]
                   (Header 0 0 128 0 0 0 0) eq_refl _ _ _)).
  - simpl. lia.
  - simpl. lia.
  - vm_compute. reflexivity.
Defined.

Lemma decode_to_array_rejects_mismatch_witness :
  exists msg,
    decode_to_array 4 2 (Header 2 1 8 8 1 0x44332211 0xDDCCBBAA) 8 dual_8x1
      = StaticAssert msg.
Proof.
  apply decode_to_array_rejects_mismatch; [reflexivity | simpl; lia].
Defined.

(** ** Byte counts over all of [int] *)

(** [get_byte_count_from_bit_count] is the ceiling of [bit_count / 8] for a
    negative argument too (the form a [bit_count] of [2^31] or more takes
    when it is converted to [int]): the division truncates towards zero and
    the remainder, not being positive, adds nothing.  So the function is
    monotone. *)
Theorem get_byte_count_from_bit_count_all (a b : Z) :
  (8 * (get_byte_count_from_bit_count a - 1) < a
     <= 8 * get_byte_count_from_bit_count a) /\
  (a <= b -> get_byte_count_from_bit_count a <= get_byte_count_from_bit_count b).
Proof.
  assert (forall x, 8 * (get_byte_count_from_bit_count x - 1) < x
                      <= 8 * get_byte_count_from_bit_count x) as Hceil.
  { intros x. unfold get_byte_count_from_bit_count.
    destruct (Z_le_gt_dec 0 x) as [Hnn | Hneg].
    - rewrite Z.quot_div_nonneg, Z.rem_mod_nonneg by lia.
      pose proof (Z.div_mod x 8 ltac:(lia)).
      pose proof (Z.mod_pos_bound x 8 ltac:(lia)).
      destruct (x mod 8 >? 0) eqn:Hgt.
      + apply Z.gtb_lt in Hgt. lia.
      + rewrite Z.gtb_ltb in Hgt. apply Z.ltb_ge in Hgt. lia.
    - replace x with (- - x) by lia.
      rewrite Z.quot_opp_l, Z.rem_opp_l by lia.
      rewrite Z.quot_div_nonneg, Z.rem_mod_nonneg by lia.
      pose proof (Z.div_mod (- x) 8 ltac:(lia)).
      pose proof (Z.mod_pos_bound (- x) 8 ltac:(lia)).
      assert ((- (- x mod 8) >? 0) = false) as ->
        by (rewrite Z.gtb_ltb; apply Z.ltb_ge; lia).
      lia. }
  split; [apply Hceil |].
  intros Hab. pose proof (Hceil a). pose proof (Hceil b). lia.
Qed.

Lemma get_byte_count_from_bit_count_all_witness :
  get_byte_count_from_bit_count (-9) <= get_byte_count_from_bit_count 9.
Proof. apply (get_byte_count_from_bit_count_all (-9) 9). lia. Defined.

(** ** [tools.h] *)

(** For a byte count from 0 to [INT_MAX], [get_symbol_count] is the least
    number of symbols of [sizeof(color_type)] bytes that hold it: the
    quotient, plus one when bytes are left over. *)
Theorem get_symbol_count_ceil (sizeof_color : positive) (byte_count : Z) :
  0 <= byte_count <= int_max ->
  exists k,
    get_symbol_count sizeof_color byte_count = Ok k /\
    Z.pos sizeof_color * (k - 1) < byte_count <= Z.pos sizeof_color * k /\
    (byte_count mod Z.pos sizeof_color = 0 -> k = byte_count / Z.pos sizeof_color) /\
    (byte_count mod Z.pos sizeof_color <> 0 ->
     k = byte_count / Z.pos sizeof_color + 1).
Proof.
  unfold int_max. intros Hrange. unfold get_symbol_count.
  rewrite to_size_t_id by lia.
  rewrite Z.quot_div_nonneg, Z.rem_mod_nonneg by lia.
  pose proof (Z.div_mod byte_count (Z.pos sizeof_color) ltac:(lia)) as Hdm.
  pose proof (Z.mod_pos_bound byte_count (Z.pos sizeof_color) ltac:(lia)) as Hm.
  assert (0 <= byte_count / Z.pos sizeof_color <= byte_count) as Hq.
  { split; [apply Z.div_pos; lia | apply Z.div_le_upper_bound; nia]. }
  rewrite !to_int_id by (unfold int_min, int_max; lia).
  destruct (byte_count mod Z.pos sizeof_color >? 0) eqn:Hgt.
  - apply Z.gtb_lt in Hgt.
    exists (byte_count / Z.pos sizeof_color + 1). split.
    + unfold int_add.
      assert (byte_count / Z.pos sizeof_color + 1 <= 2 ^ 31 - 1) as Hfit by nia.
      assert ((int_min <=? byte_count / Z.pos sizeof_color + 1) = true) as ->
        by (apply Z.leb_le; unfold int_min; lia).
      by assert ((byte_count / Z.pos sizeof_color + 1 <=? int_max) = true) as ->
        by (apply Z.leb_le; unfold int_max; lia).
    + repeat split; nia.
  - rewrite Z.gtb_ltb in Hgt. apply Z.ltb_ge in Hgt.
    exists (byte_count / Z.pos sizeof_color). split; [done |].
    repeat split; nia.
Qed.

Lemma get_symbol_count_ceil_witness :
  exists k, get_symbol_count 3 8 = Ok k /\ 3 * (k - 1) < 8 <= 3 * k.
Proof.
  destruct (get_symbol_count_ceil 3 8 ltac:(vm_compute; intuition congruence))
    as (k & Hrun & Hbound & _).
  exists k. split; [exact Hrun | exact Hbound].
Defined.

(** [abs] on a signed integer type of [bits] bits returns the absolute value
    of every value but the least one; of the least value it returns that
    value itself, negative, when the type is narrower than [int], and is
    undefined on [int] and wider types. *)
Theorem abs_signed_spec (bits : Z) (value : Z) :
  8 <= bits ->
  - 2 ^ (bits - 1) <= value < 2 ^ (bits - 1) ->
  (value <> - 2 ^ (bits - 1) -> abs_signed bits value = Ok (Z.abs value)) /\
  (value = - 2 ^ (bits - 1) ->
   abs_signed bits value = if bits <? 32 then Ok value else Undefined).
Proof.
  intros Hbits Hrange.
  assert (2 ^ bits = 2 * 2 ^ (bits - 1)) as Hpow.
  { replace bits with (Z.succ (bits - 1)) at 1 by lia.
    apply Z.pow_succ_r. lia. }
  assert (0 < 2 ^ (bits - 1)) as Hhalf by (apply Z.pow_pos_nonneg; lia).
  unfold abs_signed, to_signed. split.
  - intros Hmin. destruct (value <? 0) eqn:Hneg.
    + apply Z.ltb_lt in Hneg. rewrite Z.abs_neq by lia.
      destruct (bits <? 32).
      * rewrite Z.mod_small by lia. f_equal. lia.
      * by assert ((value =? - 2 ^ (bits - 1)) = false) as ->
          by (by apply Z.eqb_neq).
    + apply Z.ltb_ge in Hneg. by rewrite Z.abs_eq.
  - intros ->.
    assert ((- 2 ^ (bits - 1) <? 0) = true) as -> by (apply Z.ltb_lt; lia).
    destruct (bits <? 32).
    + rewrite Z.opp_involutive.
      replace (2 ^ (bits - 1) + 2 ^ (bits - 1)) with (2 ^ bits) by lia.
      rewrite Z.mod_same by lia. f_equal.
    + by rewrite Z.eqb_refl.
Qed.

Lemma abs_signed_spec_witness :
  abs_signed 32 (-7) = Ok 7 /\ abs_signed 8 (-128) = Ok (-128).
Proof.
  split.
  - refine (proj1 (abs_signed_spec 32 (-7) _ _) _); simpl; lia.
  - refine (proj2 (abs_signed_spec 8 (-128) _ _) _); simpl; lia.
Defined.
